(** * EmaCrossUniverseSelectionAlgorithm: a shallow embedding

    Source: Algorithm.Python/EmaCrossUniverseSelectionAlgorithm.py

    The Python program is embedded as Rocq functions:
    - Python objects that are mutated in place ([SymbolData], the algorithm
      itself) become records threaded through a small state-and-exception
      monad; a raised exception keeps the mutations made before it, as in
      Python;
    - the arithmetic is an interface ([Number]) with two instances:
      [binary64], the floats of Python, on which the program runs, and
      [exact], the rational numbers, in which the specification words its
      formulas; what is proved for every arithmetic holds of the program;
    - the moving-average indicator is an interface ([Indicator]); its
      exponential instance [EMA] follows the written description of the
      accumulator. *)

From Stdlib Require Import PrimFloat.
From Stdlib Require Import QArith Qabs Lqa ZArith Lia List String Bool Arith.
From Stdlib Require Import Sorted Permutation.
Import ListNotations.
Local Open Scope Q_scope.

(** ** Numbers *)

(** What the program uses of its numbers: the literals [0], [2.0], [1.01]
    and [0.1], the conversion of an integer, the four operations, the
    comparison [x > y] and the test of a divisor against zero. *)
Class Number (F : Type) : Type := {
  num_of_nat : nat -> F;
  num_0 : F;
  num_2 : F;
  num_1_01 : F;
  num_0_1 : F;
  num_add : F -> F -> F;
  num_sub : F -> F -> F;
  num_mul : F -> F -> F;
  num_div : F -> F -> F;
  num_gt : F -> F -> bool;
  num_is_zero : F -> bool
}.

Declare Scope num_scope.
Delimit Scope num_scope with num.
Infix "+" := num_add : num_scope.
Infix "-" := num_sub : num_scope.
Infix "*" := num_mul : num_scope.
Infix "/" := num_div : num_scope.
Infix ">?" := num_gt (at level 70, no associativity) : num_scope.

(** An integer as a float; exact for the integers the program converts. *)
Fixpoint float_of_nat (n : nat) : float :=
  match n with
  | O => 0%float
  | S n' => PrimFloat.add (float_of_nat n') 1%float
  end.

(** The floats of Python: IEEE 754 binary64, rounding to nearest, ties to
    even. A decimal literal denotes the nearest float; a comparison with a
    NaN is false; [x / y] raises when [y == 0.0], for either zero. *)
#[export] Instance binary64 : Number float := {|
  num_of_nat := float_of_nat;
  num_0 := 0%float;
  num_2 := 2%float;
  num_1_01 := 0x1.028f5c28f5c29p+0%float;
  num_0_1 := 0x1.999999999999ap-4%float;
  num_add := PrimFloat.add;
  num_sub := PrimFloat.sub;
  num_mul := PrimFloat.mul;
  num_div := PrimFloat.div;
  num_gt := fun x y => PrimFloat.ltb y x;
  num_is_zero := fun x => PrimFloat.eqb x 0%float
|}.

(** [x > y] on rationals. *)
Definition Qgt_bool (x y : Q) : bool := negb (Qle_bool x y).

(** The rational numbers, with exact operations; results are kept in lowest
    terms. *)
#[export] Instance exact : Number Q := {|
  num_of_nat := fun n => inject_Z (Z.of_nat n);
  num_0 := 0;
  num_2 := 2;
  num_1_01 := 101 # 100;
  num_0_1 := 1 # 10;
  num_add := fun x y => Qred (x + y);
  num_sub := fun x y => Qred (x - y);
  num_mul := fun x y => Qred (x * y);
  num_div := fun x y => Qred (x / y);
  num_gt := Qgt_bool;
  num_is_zero := fun x => Qeq_bool x 0
|}.

(** ** Python control effects *)

Module Py.

(** The built-in exceptions the program can raise. *)
Inductive exn : Type :=
| AttributeError
| UnboundLocalError
| ZeroDivisionError
| KeyError.

Inductive result (A : Type) : Type :=
| Ok (a : A)
| Raise (e : exn).
Arguments Ok {A} a.
Arguments Raise {A} e.

(** A computation over a mutable object of type [S]: the object after the
    computation, and either a value or the exception that ended it. *)
Definition M (S A : Type) : Type := S -> S * result A.

Definition ret {S A} (a : A) : M S A := fun s => (s, Ok a).

Definition bind {S A B} (c : M S A) (k : A -> M S B) : M S B :=
  fun s =>
    match c s with
    | (s', Ok a) => k a s'
    | (s', Raise e) => (s', Raise e)
    end.

Definition raise {S A} (e : exn) : M S A := fun s => (s, Raise e).

Definition gets {S A} (f : S -> A) : M S A := fun s => (s, Ok (f s)).

Definition modify {S} (f : S -> S) : M S unit := fun s => (f s, Ok tt).

(** Lifts a computation that has no access to the object. *)
Definition lift {S A} (r : result A) : M S A := fun s => (s, r).

Definition exec {S A} (c : M S A) (s : S) : S := fst (c s).
Definition outcome {S A} (c : M S A) (s : S) : result A := snd (c s).

(** [for x in xs: body(x)] *)
Fixpoint for_each {S B} (xs : list B) (body : B -> M S unit) : M S unit :=
  match xs with
  | [] => ret tt
  | x :: xs' => bind (body x) (fun _ => for_each xs' body)
  end.

(** [[f(x) for x in xs]] *)
Fixpoint comprehension {S B C} (xs : list B) (f : B -> M S C) : M S (list C) :=
  match xs with
  | [] => ret []
  | x :: xs' => bind (f x) (fun y => bind (comprehension xs' f) (fun ys => ret (y :: ys)))
  end.

(** [x / y]: a zero divisor raises. *)
Definition divide {S F} `{Number F} (x y : F) : M S F :=
  if num_is_zero y then raise ZeroDivisionError else ret (x / y)%num.

(** A local variable of a function body is unbound until first assigned. *)
Definition read_local {S F} (v : option F) : M S F :=
  match v with
  | Some q => ret q
  | None => raise UnboundLocalError
  end.

End Py.

Import Py.

Declare Scope py_scope.
Delimit Scope py_scope with py.
Notation "x <- c ;; k" := (bind c (fun x => k))
  (at level 61, c at next level, right associativity) : py_scope.
Notation "c ;; k" := (bind c (fun _ => k))
  (at level 61, right associativity) : py_scope.
Local Open Scope py_scope.

(** ** The indicator interface *)

Definition Time : Type := Z.

(** What the program uses of an indicator object: construction with a
    period, [update(time, value)], which absorbs a sample and answers whether
    the indicator is ready, and [current.value]. *)
Class Indicator (F A : Type) : Type := {
  create : nat -> A;
  ind_update : A -> Time -> F -> A * bool;
  current_value : A -> F
}.

(** Readiness is monotone: an indicator that has answered ready answers
    ready on the next sample too (hence on every later one). *)
Definition monotone_ready (F A : Type) `{Indicator F A} : Prop :=
  forall (a : A) (t : Time) (v : F) (t' : Time) (v' : F),
    snd (ind_update a t v) = true ->
    snd (ind_update (fst (ind_update a t v)) t' v') = true.

(** A Symbol is identified by its ticker, [symbol.value]. *)
Record Symbol : Type := { ticker : string }.

Definition Symbol_eqb (a b : Symbol) : bool := String.eqb (ticker a) (ticker b).

(** ** class SymbolData *)

Module SymbolData.
Section WithIndicator.
Context {F : Type} `{Number F} {A : Type} `{Indicator F A}.

(** The instance attributes bound by [__init__]. *)
Record t : Type := {
  _symbol : Symbol;
  tolerance : F;
  fast : A;
  slow : A;
  is_uptrend : bool;
  scale : F
}.

Definition set_fast (a : A) (self : t) : t :=
  {| _symbol := _symbol self; tolerance := tolerance self; fast := a;
     slow := slow self; is_uptrend := is_uptrend self; scale := scale self |}.

Definition set_slow (a : A) (self : t) : t :=
  {| _symbol := _symbol self; tolerance := tolerance self; fast := fast self;
     slow := a; is_uptrend := is_uptrend self; scale := scale self |}.

Definition set_is_uptrend (b : bool) (self : t) : t :=
  {| _symbol := _symbol self; tolerance := tolerance self; fast := fast self;
     slow := slow self; is_uptrend := b; scale := scale self |}.

Definition set_scale (q : F) (self : t) : t :=
  {| _symbol := _symbol self; tolerance := tolerance self; fast := fast self;
     slow := slow self; is_uptrend := is_uptrend self; scale := q |}.

(** [def __init__(self, symbol)]; the initial [scale] is the integer [0] of
    the source, which compares, sorts and adds as the number zero. *)
Definition __init__ (symbol : Symbol) : t :=
  {| _symbol := symbol;
     tolerance := num_1_01;
     fast := create 100;
     slow := create 300;
     is_uptrend := false;
     scale := num_0 |}.

(** The value of an attribute read by name. *)
Inductive attr : Type :=
| ASymbol (s : Symbol)
| ANumber (q : F)
| ABool (b : bool)
| AIndicator (a : A)
| AMethod (name : string).

(** [getattr(self, name)]: an instance has the attributes [__init__] bound,
    under the names it bound them, and the methods of its class; any other
    name raises. *)
Definition getattr (self : t) (name : string) : result attr :=
  if String.eqb name "_symbol" then Ok (ASymbol (_symbol self))
  else if String.eqb name "tolerance" then Ok (ANumber (tolerance self))
  else if String.eqb name "fast" then Ok (AIndicator (fast self))
  else if String.eqb name "slow" then Ok (AIndicator (slow self))
  else if String.eqb name "is_uptrend" then Ok (ABool (is_uptrend self))
  else if String.eqb name "scale" then Ok (ANumber (scale self))
  else if String.eqb name "update" then Ok (AMethod name)
  else if String.eqb name "__init__" then Ok (AMethod name)
  else Raise AttributeError.

(** [self.fast.update(time, value)] *)
Definition fast_update (time : Time) (value : F) : M t bool :=
  fun self =>
    let (a, ready) := ind_update (fast self) time value in
    (set_fast a self, Ok ready).

(** [self.slow.update(time, value)] *)
Definition slow_update (time : Time) (value : F) : M t bool :=
  fun self =>
    let (a, ready) := ind_update (slow self) time value in
    (set_slow a self, Ok ready).

(** [self.fast.update(time, value) and self.slow.update(time, value)]:
    the right operand is evaluated only when the left one is true. *)
Definition feed (time : Time) (value : F) : M t bool :=
  ready <- fast_update time value ;;
  if ready then slow_update time value else ret false.

(** The local variables [fast] and [slow] of [update]. *)
Record locals : Type := { loc_fast : option F; loc_slow : option F }.

Definition unbound : locals := {| loc_fast := None; loc_slow := None |}.

(** The first [if] of [update]. *)
Definition classify (time : Time) (value : F) : M t locals :=
  ready <- feed time value ;;
  if ready then
    fast_v <- gets (fun self => current_value (fast self)) ;;
    slow_v <- gets (fun self => current_value (slow self)) ;;
    tol <- gets tolerance ;;
    modify (set_is_uptrend (fast_v >? slow_v * tol)%num) ;;
    ret {| loc_fast := Some fast_v; loc_slow := Some slow_v |}
  else ret unbound.

(** [(fast - slow) / ((fast + slow) / 2.0)] on numbers. *)
Definition spread (fast_v slow_v : F) : F :=
  ((fast_v - slow_v) / ((fast_v + slow_v) / num_2))%num.

(** The second [if] of [update]. *)
Definition rescale (loc : locals) : M t unit :=
  up <- gets is_uptrend ;;
  if up then
    f1 <- read_local (loc_fast loc) ;;
    s1 <- read_local (loc_slow loc) ;;
    f2 <- read_local (loc_fast loc) ;;
    s2 <- read_local (loc_slow loc) ;;
    q <- divide (f1 - s1)%num ((f2 + s2) / num_2)%num ;;
    modify (set_scale q)
  else ret tt.

(** [def update(self, time, value)] *)
Definition update (time : Time) (value : F) : M t unit :=
  loc <- classify time value ;;
  rescale loc.

End WithIndicator.
Arguments t F A : clear implicits.
End SymbolData.

(** ** The exponential moving average *)

Module EMA.
Section WithNumber.
Context {F : Type} `{Number F}.

(** Modelled from the spec: the exponential moving average accumulator, class
    [ExponentialMovingAverage], which the source file imports and does not
    define. Its state is the current smoothed value and the count of samples
    absorbed; a window of [N] samples fixes the smoothing constant
    [2 / (N + 1)]; the first sample seeds the smoothed value, every later one
    is blended in; the accumulator is ready once the count has reached [N]. *)
Record t : Type := {
  window : nat;
  smoothed : F;
  count : nat
}.

(** Modelled from the spec: the smoothing constant of a window of [N]
    samples, [2 / (N + 1)]. *)
Definition alpha (N : nat) : F := (num_2 / num_of_nat (N + 1))%num.

(** Modelled from the spec: [ExponentialMovingAverage(N)], with no sample
    absorbed; the value it shows before its first sample is not specified
    and is 0 here. *)
Definition new (N : nat) : t :=
  {| window := N; smoothed := num_0; count := 0 |}.

(** Modelled from the spec: the recurrence
    [alpha * price + (1 - alpha) * previous]. *)
Definition blend (N : nat) (price previous : F) : F :=
  (alpha N * price + (num_of_nat 1 - alpha N) * previous)%num.

(** Modelled from the spec: one sample absorbed. The first sample seeds the
    smoothed value, a later one is blended in; the count goes up by one. *)
Definition absorb (a : t) (price : F) : t :=
  {| window := window a;
     smoothed := if Nat.eqb (count a) 0 then price
                 else blend (window a) price (smoothed a);
     count := S (count a) |}.

(** Modelled from the spec: warm-up is complete once the count has reached
    the window. *)
Definition is_ready (a : t) : bool := Nat.leb (window a) (count a).

(** Modelled from the spec: [update(time, price)] of the accumulator absorbs
    the sample and answers the readiness flag. *)
Definition update (a : t) (time : Time) (price : F) : t * bool :=
  let a' := absorb a price in (a', is_ready a').

End WithNumber.
Arguments t F : clear implicits.
End EMA.

#[export] Instance EMA_Indicator {F : Type} `{Number F} : Indicator F (EMA.t F) := {|
  create := EMA.new;
  ind_update := EMA.update;
  current_value := EMA.smoothed
|}.

(** ** Platform data *)

Module CoarseFundamental.
Record t (F : Type) : Type := {
  symbol : Symbol;
  end_time : Time;
  adjusted_price : F
}.
Arguments symbol {F} _.
Arguments end_time {F} _.
Arguments adjusted_price {F} _.
End CoarseFundamental.

Module Security.
Record t : Type := {
  symbol : Symbol;
  invested : bool
}.
End Security.

Module SecurityChanges.
Record t : Type := {
  removed_securities : list Security.t;
  added_securities : list Security.t
}.
End SecurityChanges.

(** The requests the algorithm sends to the platform's order side. *)
Inductive request (F : Type) : Type :=
| Liquidate (s : Symbol)
| SetHoldings (s : Symbol) (percentage : F).
Arguments Liquidate {F} s.
Arguments SetHoldings {F} s percentage.

(** ** A dict keyed by Symbol, in insertion order *)

Module Dict.
Section WithValue.
Context {V : Type}.

Definition t : Type := list (Symbol * V).

Fixpoint get (d : t) (k : Symbol) : option V :=
  match d with
  | [] => None
  | (k', v) :: d' => if Symbol_eqb k k' then Some v else get d' k
  end.

Definition contains (d : t) (k : Symbol) : bool :=
  match get d k with Some _ => true | None => false end.

(** [d[k] = v]: an existing key keeps its place, a new key goes last. *)
Fixpoint set (d : t) (k : Symbol) (v : V) : t :=
  match d with
  | [] => [(k, v)]
  | (k', v') :: d' =>
      if Symbol_eqb k k' then (k', v) :: d' else (k', v') :: set d' k v
  end.

Definition values (d : t) : list V := map snd d.

End WithValue.
Arguments t V : clear implicits.
End Dict.

(** ** class EmaCrossUniverseSelectionAlgorithm *)

Module Algorithm.
Section WithIndicator.
Context {F : Type} `{Number F} {A : Type} `{Indicator F A}.

(** The attributes set by [initialize], and what the algorithm has sent to
    the platform: its log lines (the two values each line prints) and its
    order requests, oldest first. *)
Record t : Type := {
  coarse_count : nat;
  averages : Dict.t (SymbolData.t F A);
  logged : list (string * F);
  requests : list (request F)
}.

Definition set_averages (d : Dict.t (SymbolData.t F A)) (self : t) : t :=
  {| coarse_count := coarse_count self; averages := d;
     logged := logged self; requests := requests self |}.

(** [def initialize(self)]: the two attributes it sets; the dates, the cash
    and the universe settings it hands to the platform are not modelled. *)
Definition initialize : t :=
  {| coarse_count := 10; averages := []; logged := []; requests := [] |}.

(** [self.log(...)] *)
Definition log (line : string * F) : M t unit :=
  modify (fun self =>
    {| coarse_count := coarse_count self; averages := averages self;
       logged := logged self ++ [line]; requests := requests self |}).

Definition send (r : request F) : M t unit :=
  modify (fun self =>
    {| coarse_count := coarse_count self; averages := averages self;
       logged := logged self; requests := requests self ++ [r] |}).

(** [self.liquidate(symbol)] *)
Definition liquidate (symbol : Symbol) : M t unit := send (Liquidate symbol).

(** [self.set_holdings(symbol, percentage)] *)
Definition set_holdings (symbol : Symbol) (percentage : F) : M t unit :=
  send (SetHoldings symbol percentage).

(** Runs a method on the object stored under [k] in [self.averages]; the dict
    holds a reference, so the object's mutations are seen through the dict. *)
Definition on_average {X : Type} (k : Symbol) (c : M (SymbolData.t F A) X) : M t X :=
  fun self =>
    match Dict.get (averages self) k with
    | None => (self, Raise KeyError)
    | Some avg =>
        let (avg', r) := c avg in
        (set_averages (Dict.set (averages self) k avg') self, r)
    end.

(** [x.symbol] on a SymbolData *)
Definition read_symbol (x : SymbolData.t F A) : M t (SymbolData.attr (F := F) (A := A)) :=
  lift (SymbolData.getattr x "symbol").

(** [.value] on what [x.symbol] gave *)
Definition read_value (a : SymbolData.attr (F := F) (A := A)) : M t string :=
  match a with
  | SymbolData.ASymbol s => ret (ticker s)
  | _ => raise AttributeError
  end.

(** Insertion of [x] into a list sorted by scale, greatest first: [x] goes
    before the first element whose scale is not greater than its own. *)
Fixpoint insert_desc (x : SymbolData.t F A) (l : list (SymbolData.t F A))
  : list (SymbolData.t F A) :=
  match l with
  | [] => [x]
  | y :: l' =>
      if (SymbolData.scale y >? SymbolData.scale x)%num
      then y :: insert_desc x l'
      else x :: y :: l'
  end.

(** [values.sort(key=lambda x: x.scale, reverse=True)]: the sort is stable,
    elements of equal scale keep their order. Any stable sort gives this
    list when [>] orders the scales; a NaN among them leaves the order of
    Python's result to the steps of its algorithm. *)
Definition sort_by_scale_reverse (l : list (SymbolData.t F A)) : list (SymbolData.t F A) :=
  fold_right insert_desc [] l.

(** [def coarse_selection_function(self, coarse)] *)
Definition coarse_selection_function (coarse : list (CoarseFundamental.t F))
  : M t (list (SymbolData.attr (F := F) (A := A))) :=
  for_each coarse (fun cf =>
    present <- gets (fun self => Dict.contains (averages self) (CoarseFundamental.symbol cf)) ;;
    (if negb present
     then modify (fun self =>
            set_averages (Dict.set (averages self) (CoarseFundamental.symbol cf)
                            (SymbolData.__init__ (CoarseFundamental.symbol cf))) self)
     else ret tt) ;;
    on_average (CoarseFundamental.symbol cf)
      (SymbolData.update (CoarseFundamental.end_time cf)
                         (CoarseFundamental.adjusted_price cf))) ;;
  values <- gets (fun self => filter SymbolData.is_uptrend (Dict.values (averages self))) ;;
  values <- ret (sort_by_scale_reverse values) ;;
  top <- gets (fun self => firstn (coarse_count self) values) ;;
  for_each top (fun x =>
    s <- read_symbol x ;;
    v <- read_value s ;;
    log (v, SymbolData.scale x)) ;;
  top <- gets (fun self => firstn (coarse_count self) values) ;;
  comprehension top read_symbol.

(** [def on_securities_changed(self, changes)] *)
Definition on_securities_changed (changes : SecurityChanges.t) : M t unit :=
  for_each (SecurityChanges.removed_securities changes) (fun security =>
    if Security.invested security
    then liquidate (Security.symbol security)
    else ret tt) ;;
  for_each (SecurityChanges.added_securities changes) (fun security =>
    set_holdings (Security.symbol security) num_0_1).

End WithIndicator.
Arguments t F A : clear implicits.
End Algorithm.

(** ** Sequences of calls *)

Import SymbolData.

(** A sample is a pair of a timestamp and a price. *)
Definition sample (F : Type) : Type := (Time * F)%type.

Section Calls.
Context {F : Type} `{Number F} {A : Type} `{Indicator F A}.

(** The calls [update(time, price)] for the samples of a list, in order; an
    exception ends the sequence. *)
Definition run (samples : list (sample F)) : M (SymbolData.t F A) unit :=
  for_each samples (fun x => update (fst x) (snd x)).

(** The objects a program can hold: a fresh one, or one that has gone
    through further calls of [update] (whether a call returned or raised). *)
Inductive reachable : SymbolData.t F A -> Prop :=
| reachable_init (symbol : Symbol) : reachable (__init__ symbol)
| reachable_update (s : SymbolData.t F A) (time : Time) (value : F) :
    reachable s -> reachable (exec (update time value) s).

(** Both indicators are known to answer ready to their next sample. *)
Definition warmed_up (s : SymbolData.t F A) : Prop :=
  (forall t v, snd (ind_update (fast s) t v) = true) /\
  (forall t v, snd (ind_update (slow s) t v) = true).

End Calls.

(** Samples at times [from], [from + 1], ... with the given prices. *)
Fixpoint ticks {F : Type} (from : Z) (prices : list F) : list (sample F) :=
  match prices with
  | [] => []
  | p :: ps => (from, p) :: ticks (from + 1) ps
  end.

Definition SPY : Symbol := {| ticker := "SPY" |}.

(** The program: objects and algorithm over the floats of Python and the
    exponential average computed in them. *)
Definition Obj : Type := SymbolData.t float (EMA.t float).
Definition Algo : Type := Algorithm.t float (EMA.t float).

(** The same in exact arithmetic. *)
Definition IdealObj : Type := SymbolData.t Q (EMA.t Q).

(** 398 days at price 1. *)
Definition flat_398 : list (sample float) := ticks 1%Z (repeat 1%float 398).

(** The object of SPY after the flat days: the fast average is ready, the
    slow one has absorbed the 299 samples since the fast became ready. *)
Definition spy_flat : Obj := exec (run flat_398) (__init__ SPY).

(** ... and after a rise to 2 on day 399. *)
Definition spy_up : Obj := exec (update 399%Z 2%float) spy_flat.

(** ... and after a fall to 1/2 on day 400. *)
Definition spy_down : Obj := exec (update 400%Z 0.5%float) spy_up.

(** 299 days at price 7. *)
Definition flat_299 : list (sample float) := ticks 1%Z (repeat 7%float 299).


(** 398 days at price 0, and the object of SPY after them. *)
Definition still_398 : list (sample float) := ticks 1%Z (repeat 0%float 398).

Definition spy_still : Obj := exec (run still_398) (__init__ SPY).

(** A price of forty times the least positive float: the fast average
    takes it to the least positive float, the slow one to zero. *)
Definition tiny : float := 0x1.4p-1069%float.

(** 398 days at a price near the greatest float, then seven days at a
    higher one, and the object of SPY after them. *)
Definition high_405 : list (sample float) :=
  ticks 1%Z (repeat 0x1.ap+1023%float 398) ++ ticks 399%Z (repeat 0x1.fp+1023%float 7).

Definition spy_high : Obj := exec (run high_405) (__init__ SPY).



Definition ideal_seeded : IdealObj := exec (update 1%Z 1) (__init__ SPY).

(** The ranking as the specification words it: keep the objects in an
    uptrend, order them by scale, greatest first and stably, take the first
    ten, and give their symbols. *)
Definition ranking_spec {F : Type} `{Number F} {A : Type} `{Indicator F A}
    (tracked : list (SymbolData.t F A)) : list Symbol :=
  map _symbol (firstn 10 (Algorithm.sort_by_scale_reverse (filter is_uptrend tracked))).

(** Replaying a sample: [update(t, p)] twice in a row. *)
Definition replay_unchanged (s0 : IdealObj) (t : Time) (p : Q) : Prop :=
  let s1 := exec (update t p) s0 in
  let s2 := exec (update t p) s1 in
  is_uptrend s2 = is_uptrend s1 /\ scale s2 == scale s1.


(** The price is the smoothed value of both averages: in exact arithmetic,
    and in the floats of the program. *)
Definition price_converged (s : IdealObj) (p : Q) : Prop :=
  EMA.smoothed (fast s) == p /\ EMA.smoothed (slow s) == p.


(** The state of an object after [n] calls of a warm-up that has not
    reached the readiness of the slow average. *)
Definition warming {F : Type} `{Number F} (n : nat) (s : SymbolData.t F (EMA.t F)) : Prop :=
  EMA.window (fast s) = 100%nat /\ EMA.window (slow s) = 300%nat /\
  EMA.count (fast s) = n /\ EMA.count (slow s) = (n - 99)%nat /\
  is_uptrend s = false /\ scale s = num_0.




(** The coarse data of a day on which SPY is the whole universe. *)
Definition spy_bar (x : sample float) : CoarseFundamental.t float :=
  {| CoarseFundamental.symbol := SPY;
     CoarseFundamental.end_time := fst x;
     CoarseFundamental.adjusted_price := snd x |}.

(** One universe selection per day. *)
Definition daily_selections (days : list (sample float)) : M Algo unit :=
  for_each days (fun x => Algorithm.coarse_selection_function [spy_bar x] ;; ret tt).

(** The algorithm after the selections of the 398 flat days. *)
Definition algorithm_flat : Algo :=
  exec (daily_selections flat_398) Algorithm.initialize.

(** The algorithm with further requests sent. *)
Definition with_requests {F : Type} `{Number F} {A : Type} `{Indicator F A}
    (rs : list (request F)) (self : Algorithm.t F A) : Algorithm.t F A :=
  {| Algorithm.coarse_count := Algorithm.coarse_count self;
     Algorithm.averages := Algorithm.averages self;
     Algorithm.logged := Algorithm.logged self;
     Algorithm.requests := Algorithm.requests self ++ rs |}.

(** ** The parts of the selection *)

Section SelectionParts.
Context {F : Type} `{Number F} {A : Type} `{Indicator F A}.

(** The body of the loop of [coarse_selection_function] for one entry of the
    coarse data. *)
Definition track (cf : CoarseFundamental.t F) : M (Algorithm.t F A) unit :=
  present <- gets (fun self => Dict.contains (Algorithm.averages self) (CoarseFundamental.symbol cf)) ;;
  (if negb present
   then modify (fun self =>
          Algorithm.set_averages
            (Dict.set (Algorithm.averages self) (CoarseFundamental.symbol cf)
               (__init__ (CoarseFundamental.symbol cf))) self)
   else ret tt) ;;
  Algorithm.on_average (CoarseFundamental.symbol cf)
    (update (CoarseFundamental.end_time cf) (CoarseFundamental.adjusted_price cf)).

(** The object the loop updates for a symbol: the tracked one, or a new one. *)
Definition current_object (d : Dict.t (SymbolData.t F A)) (k : Symbol) : SymbolData.t F A :=
  match Dict.get d k with
  | Some x => x
  | None => __init__ k
  end.

(** [values] after the sort: the tracked objects in an uptrend, ranked. *)
Definition ranked (self : Algorithm.t F A) : list (SymbolData.t F A) :=
  Algorithm.sort_by_scale_reverse
    (filter is_uptrend (Dict.values (Algorithm.averages self))).

(** [values[:self.coarse_count]] *)
Definition top_values (self : Algorithm.t F A) : list (SymbolData.t F A) :=
  firstn (Algorithm.coarse_count self) (ranked self).

(** The symbols under which objects are tracked, in the order of the dict. *)
Definition tracked_symbols (self : Algorithm.t F A) : list Symbol :=
  map fst (Algorithm.averages self).

(** No symbol is tracked twice, and every tracked object is stored under the
    symbol it was built with and has only gone through calls of [update]
    since. *)
Definition tracked_ok (self : Algorithm.t F A) : Prop :=
  NoDup (tracked_symbols self) /\
  Forall (fun kv => _symbol (snd kv) = fst kv /\ reachable (snd kv))
    (Algorithm.averages self).

(** The comparison [>] orders the numbers of a list: it is asymmetric, and
    a number that is greater than another is greater than any third or has
    the third greater than the other. Numbers that are not NaN are so
    ordered. *)
Definition weakly_ordered (ks : list F) : Prop :=
  (forall a b, In a ks -> In b ks -> (a >? b)%num = true -> (b >? a)%num = false) /\
  (forall a b c, In a ks -> In b ks -> In c ks ->
     (c >? a)%num = true -> (c >? b)%num = true \/ (b >? a)%num = true).

(** The same, decided. *)
Definition weakly_orderedb (ks : list F) : bool :=
  forallb (fun a => forallb (fun b =>
    implb (a >? b)%num (negb (b >? a)%num) &&
    forallb (fun c => implb (c >? a)%num ((c >? b)%num || (b >? a)%num)) ks) ks) ks.

(** Neither scale is greater than the other. *)
Definition same_scale (q : F) (y : SymbolData.t F A) : bool :=
  negb (scale y >? q)%num && negb (q >? scale y)%num.

(** Greatest scale first: no object has a greater scale than one before
    it. *)
Definition descending (l : list (SymbolData.t F A)) : Prop :=
  StronglySorted (fun x y => (scale y >? scale x)%num = false) l.

End SelectionParts.

Definition AAPL : Symbol := {| ticker := "AAPL" |}.

(** The algorithm after one selection on a day with AAPL alone, at price 3. *)
Definition algorithm_aapl : Algo :=
  exec (Algorithm.coarse_selection_function
          [{| CoarseFundamental.symbol := AAPL;
              CoarseFundamental.end_time := 1%Z;
              CoarseFundamental.adjusted_price := 3%float |}])
    Algorithm.initialize.

(** Three objects in an uptrend with the scales 0.05, 0.20 and 0.10. *)
Definition with_scale (k : string) (q : float) : Obj :=
  set_scale q (set_is_uptrend true (__init__ {| ticker := k |})).

Definition three_ranked : list Obj :=
  [with_scale "A" 0x1.999999999999ap-5%float;
   with_scale "B" 0x1.999999999999ap-3%float;
   with_scale "C" 0x1.999999999999ap-4%float].

(** An algorithm that tracks the three objects and selects two. *)
Definition algorithm_three : Algo :=
  {| Algorithm.coarse_count := 2;
     Algorithm.averages := map (fun x => (_symbol x, x)) three_ranked;
     Algorithm.logged := [];
     Algorithm.requests := [] |}.
(** * Properties *)

Ltac unfold_update :=
  unfold exec, outcome, update, classify, rescale, feed, fast_update, slow_update,
    bind, ret, gets, modify, raise, read_local, divide.

(** Case analysis along the control flow of [update]: the answer of the fast
    indicator, of the slow one when it is asked, the uptrend test and the
    zero test of the divisor. *)
Ltac update_cases s t v :=
  unfold_update;
  let f := fresh "f'" in let rf := fresh "rf" in let Ef := fresh "Ef" in
  destruct (ind_update (fast s) t v) as [f rf] eqn:Ef; cbn [fst snd];
  destruct rf; cbn;
  [ let sl := fresh "sl'" in let rs := fresh "rs" in let Es := fresh "Es" in
    destruct (ind_update (slow s) t v) as [sl rs] eqn:Es; cbn [fst snd];
    destruct rs; cbn;
    [ let Eu := fresh "Eu" in
      destruct (current_value f >? current_value sl * tolerance s)%num eqn:Eu; cbn;
      [ let Ez := fresh "Ez" in
        destruct (num_is_zero ((current_value f + current_value sl) / num_2)%num) eqn:Ez; cbn
      | ]
    | let Eup := fresh "Eup" in destruct (is_uptrend s) eqn:Eup; cbn ]
  | let Eup := fresh "Eup" in destruct (is_uptrend s) eqn:Eup; cbn ].

Section SymbolDataFacts.
Context {F : Type} `{Number F} {A : Type} `{Indicator F A}.

Lemma update_tolerance (s : SymbolData.t F A) (t : Time) (v : F) :
  tolerance (exec (update t v) s) = tolerance s.
Proof. update_cases s t v; reflexivity. Qed.

Lemma update__symbol (s : SymbolData.t F A) (t : Time) (v : F) :
  _symbol (exec (update t v) s) = _symbol s.
Proof. update_cases s t v; reflexivity. Qed.

Lemma reachable_tolerance (s : SymbolData.t F A) :
  reachable s -> tolerance s = num_1_01.
Proof.
  induction 1 as [symbol | s t v Hs IH].
  - reflexivity.
  - rewrite update_tolerance. exact IH.
Qed.

(** The slow indicator is asked only when the fast one has answered ready. *)
Lemma slow_untouched (s : SymbolData.t F A) (t : Time) (v : F) :
  snd (ind_update (fast s) t v) = false ->
  slow (exec (update t v) s) = slow s.
Proof.
  update_cases s t v; intro Hf; try discriminate; reflexivity.
Qed.


Lemma slow_fed_when_fast_ready (s : SymbolData.t F A) (t : Time) (v : F) :
  snd (ind_update (fast s) t v) = true ->
  slow (exec (update t v) s) = fst (ind_update (slow s) t v).
Proof.
  update_cases s t v; intro Hf; try discriminate; reflexivity.
Qed.

Lemma reachable_run (samples : list (sample F)) (s : SymbolData.t F A) :
  reachable s -> reachable (exec (run samples) s).
Proof.
  revert s. induction samples as [|x xs IH]; intros s Hs.
  - exact Hs.
  - unfold run, exec. cbn [for_each]. unfold bind at 1.
    pose proof (reachable_update s (fst x) (snd x) Hs) as Hs'.
    unfold exec in Hs'.
    destruct (update (fst x) (snd x) s) as [s' [[]|e]]; cbn [fst] in *.
    + apply IH. exact Hs'.
    + exact Hs'.
Qed.

(** An object in an uptrend has both indicators warmed up, as long as
    readiness is monotone. *)
Lemma uptrend_warmed_up (Hmono : monotone_ready F A) (s : SymbolData.t F A) :
  reachable s -> is_uptrend s = true -> warmed_up s.
Proof.
  induction 1 as [symbol | s t v Hs IH]; [discriminate|].
  revert IH. unfold warmed_up.
  pose proof (Hmono (fast s) t v) as Hf. pose proof (Hmono (slow s) t v) as Hsl.
  update_cases s t v; cbn [fst snd] in *; intros IH Hup;
    try discriminate; try congruence;
    try (split; intros; auto; fail).
  - destruct (IH eq_refl) as [_ Hw]. specialize (Hw t v). rewrite Es in Hw. discriminate.
  - destruct (IH eq_refl) as [Hw _]. specialize (Hw t v). rewrite Ef in Hw. discriminate.
Qed.

(** [update] along its control flow, in one equation. *)
Lemma update_spec (s : SymbolData.t F A) (t : Time) (v : F) :
  update t v s =
    let f' := fst (ind_update (fast s) t v) in
    let sl' := fst (ind_update (slow s) t v) in
    if snd (ind_update (fast s) t v) then
      let s2 := set_slow sl' (set_fast f' s) in
      if snd (ind_update (slow s) t v) then
        if (current_value f' >? current_value sl' * tolerance s)%num then
          if num_is_zero ((current_value f' + current_value sl') / num_2)%num
          then (set_is_uptrend true s2, Raise ZeroDivisionError)
          else (set_scale (spread (current_value f') (current_value sl'))
                  (set_is_uptrend true s2), Ok tt)
        else (set_is_uptrend false s2, Ok tt)
      else if is_uptrend s then (s2, Raise UnboundLocalError) else (s2, Ok tt)
    else
      if is_uptrend s then (set_fast f' s, Raise UnboundLocalError)
      else (set_fast f' s, Ok tt).
Proof. update_cases s t v; reflexivity. Qed.

End SymbolDataFacts.

Section UpdateProperties.
Context {F : Type} `{Number F} {A : Type} `{Indicator F A}.

Lemma run_cons_ok (x : sample F) (xs : list (sample F)) (s s1 : SymbolData.t F A) :
  update (fst x) (snd x) s = (s1, Ok tt) ->
  run (x :: xs) s = run xs s1.
Proof.
  intro Hx. unfold run. cbn [for_each]. unfold bind at 1. rewrite Hx. reflexivity.
Qed.

(** A call that ends out of an uptrend returns normally and leaves the
    scale alone; it leaves the flag alone too when the indicators were not
    both ready. *)
Lemma no_uptrend_frame (s : SymbolData.t F A) (t : Time) (v : F) :
  is_uptrend (exec (update t v) s) = false ->
  update t v s = (exec (update t v) s, Ok tt) /\
  scale (exec (update t v) s) = scale s /\
  (outcome (feed t v) s = Ok false -> is_uptrend (exec (update t v) s) = is_uptrend s).
Proof.
  update_cases s t v; intro Hup; try discriminate; try congruence;
    repeat split; intros; try reflexivity; try congruence; try discriminate.
Qed.

Lemma scale_zero_before_uptrend (samples : list (sample F)) (s : SymbolData.t F A) :
  scale s = num_0 ->
  (forall n, is_uptrend (exec (run (firstn n samples)) s) = false) ->
  scale (exec (run samples) s) = num_0.
Proof.
  revert s. induction samples as [|x xs IH]; intros s Hs Hall.
  - exact Hs.
  - pose proof (Hall 1%nat) as H1. cbn [firstn] in H1.
    assert (Hone : exec (run [x]) s = exec (update (fst x) (snd x)) s).
    { unfold run, exec. cbn [for_each]. unfold bind at 1.
      destruct (update (fst x) (snd x) s) as [s' [[]|e]]; reflexivity. }
    rewrite Hone in H1.
    destruct (no_uptrend_frame s (fst x) (snd x) H1) as (Hret & Hsc & _).
    unfold exec at 1. rewrite (run_cons_ok x xs s _ Hret).
    apply IH.
    + rewrite Hsc. exact Hs.
    + intro n. specialize (Hall (S n)). cbn [firstn] in Hall.
      unfold exec at 1 in Hall. rewrite (run_cons_ok x _ s _ Hret) in Hall.
      exact Hall.
Qed.

(** C3: on a call where both indicators answer ready, [is_uptrend] is
    recomputed as [fast.current.value > slow.current.value * tolerance], in
    the arithmetic of the program, the tolerance being the 1.01 set at
    construction and never changed; on a call where they do not both answer
    ready, [is_uptrend] is not recomputed. *)
Theorem update_recomputes_is_uptrend (s : SymbolData.t F A) (t : Time) (v : F) :
  reachable s ->
  tolerance s = num_1_01 /\
  tolerance (exec (update t v) s) = num_1_01 /\
  (snd (ind_update (fast s) t v) = true ->
   snd (ind_update (slow s) t v) = true ->
   is_uptrend (exec (update t v) s) =
     (current_value (fast (exec (update t v) s))
        >? current_value (slow (exec (update t v) s)) * num_1_01)%num) /\
  (snd (ind_update (fast s) t v) = false \/ snd (ind_update (slow s) t v) = false ->
   is_uptrend (exec (update t v) s) = is_uptrend s).
Proof.
  intro Hs. pose proof (reachable_tolerance s Hs) as Htol.
  split; [exact Htol|]. split; [rewrite update_tolerance; exact Htol|].
  rewrite <- Htol. clear Htol Hs.
  update_cases s t v; (split; [intros Hf Hsl | intros [Hf|Hsl]]);
    try discriminate; try reflexivity; try congruence.
Qed.

(** C5, as amended: a call after which [is_uptrend] is false returns
    normally and leaves [scale] as it was before the call, so that the scale
    of an object that has never been in an uptrend is still its initial 0;
    [is_uptrend] itself is left as it was when the indicators were not both
    ready on the call (when they were, it has been recomputed, to false). *)
Theorem no_uptrend_keeps_scale (s : SymbolData.t F A) (t : Time) (v : F) :
  is_uptrend (exec (update t v) s) = false ->
  outcome (update t v) s = Ok tt /\
  scale (exec (update t v) s) = scale s /\
  (outcome (feed t v) s = Ok false ->
   is_uptrend (exec (update t v) s) = is_uptrend s) /\
  (forall (symbol : Symbol) (samples : list (sample F)),
     scale (__init__ (F := F) (A := A) symbol) = num_0 /\
     ((forall n, is_uptrend (exec (run (firstn n samples)) (__init__ symbol)) = false) ->
      scale (exec (run samples) (__init__ symbol)) = num_0)).
Proof.
  intro Hup. destruct (no_uptrend_frame s t v Hup) as (Hret & Hsc & Hflag).
  split; [unfold outcome; rewrite Hret; reflexivity|].
  split; [exact Hsc|]. split; [exact Hflag|].
  intros symbol samples. split; [reflexivity|].
  apply scale_zero_before_uptrend. reflexivity.
Qed.

(** C9: with monotone readiness, whenever the scale computation runs (the
    flag is true after the first [if]) the locals [fast] and [slow] have been
    bound in the same call, to the current values of the two indicators, so
    [update] never raises UnboundLocalError; the flag starts false and goes
    from false to true only on a call where both indicators answer ready. *)
Theorem scale_reads_bound_locals (Hmono : monotone_ready F A)
    (s : SymbolData.t F A) (t : Time) (v : F) :
  reachable s ->
  (forall symbol : Symbol, is_uptrend (__init__ (F := F) (A := A) symbol) = false) /\
  (is_uptrend (exec (classify t v) s) = true ->
   outcome (classify t v) s =
     Ok {| loc_fast := Some (current_value (fast (exec (update t v) s)));
           loc_slow := Some (current_value (slow (exec (update t v) s))) |}) /\
  outcome (update t v) s <> Raise UnboundLocalError /\
  (is_uptrend s = false -> is_uptrend (exec (update t v) s) = true ->
   snd (ind_update (fast s) t v) = true /\ snd (ind_update (slow s) t v) = true).
Proof.
  intro Hs. split; [reflexivity|].
  pose proof (uptrend_warmed_up Hmono s Hs) as Hw. unfold warmed_up in Hw.
  update_cases s t v;
    (split; [intro Hup | split; [intro Hraise | intros Hlow Hup]]);
    try discriminate; try reflexivity; try congruence; try (split; reflexivity).
  - destruct (Hw eq_refl) as [_ Hsl]. specialize (Hsl t v). rewrite Es in Hsl. discriminate.
  - destruct (Hw eq_refl) as [_ Hsl]. specialize (Hsl t v). rewrite Es in Hsl. discriminate.
  - destruct (Hw eq_refl) as [Hf _]. specialize (Hf t v). rewrite Ef in Hf. discriminate.
  - destruct (Hw eq_refl) as [Hf _]. specialize (Hf t v). rewrite Ef in Hf. discriminate.
Qed.

(** The scale formula on 110 and 100: 10/105 in exact arithmetic, and in
    the floats of the program the float next to it, 6862628003612184 / 2^56,
    printed 0.09523809523809523. *)
Lemma spread_110_100 :
  spread (F := Q) 110 100 == 10 # 105 /\
  spread (F := float) 110%float 100%float = 0x1.8618618618618p-4%float.
Proof. split; [reflexivity | vm_compute; reflexivity]. Qed.

(** C4, as amended: on a call after whose first [if] the flag is true,
    provided the divisor [(fast + slow) / 2.0] is not zero in the arithmetic
    of the program, the call returns normally with [scale] set to
    [(fast - slow) / ((fast + slow) / 2.0)] of the current values, computed
    in that arithmetic; for the values 110 and 100 that is 10/105 in exact
    arithmetic and the float next to it in the program. *)
Theorem update_sets_scale (Hmono : monotone_ready F A)
    (s : SymbolData.t F A) (t : Time) (v : F) :
  reachable s ->
  is_uptrend (exec (classify t v) s) = true ->
  num_is_zero ((current_value (fast (exec (update t v) s))
                + current_value (slow (exec (update t v) s))) / num_2)%num = false ->
  outcome (update t v) s = Ok tt /\
  scale (exec (update t v) s) =
    ((current_value (fast (exec (update t v) s)) - current_value (slow (exec (update t v) s)))
     / ((current_value (fast (exec (update t v) s)) + current_value (slow (exec (update t v) s)))
        / num_2))%num /\
  spread (F := Q) 110 100 == 10 # 105 /\
  spread (F := float) 110%float 100%float = 0x1.8618618618618p-4%float.
Proof.
  intros Hs.
  pose proof (uptrend_warmed_up Hmono s Hs) as Hw. unfold warmed_up in Hw.
  update_cases s t v; intros Hup Hnz; try discriminate; try congruence.
  - split; [reflexivity|]. split; [reflexivity|]. exact spread_110_100.
  - destruct (Hw eq_refl) as [_ Hsl]. specialize (Hsl t v). rewrite Es in Hsl. discriminate.
  - destruct (Hw eq_refl) as [Hf _]. specialize (Hf t v). rewrite Ef in Hf. discriminate.
Qed.

End UpdateProperties.

(** ** The exponential averages in SymbolData *)

Section AveragesFacts.
Context {F : Type} `{Number F}.

Lemma EMA_monotone_ready : monotone_ready F (EMA.t F).
Proof.
  intros a t v t' v'. cbn. unfold EMA.is_ready. cbn.
  rewrite !Nat.leb_le. lia.
Qed.

Lemma EMA_fed (a : EMA.t F) (t : Time) (p : F) :
  fst (ind_update a t p) = EMA.absorb a p.
Proof. reflexivity. Qed.

Lemma EMA_answer (a : EMA.t F) (t : Time) (p : F) :
  snd (ind_update a t p) = Nat.leb (EMA.window a) (S (EMA.count a)).
Proof. reflexivity. Qed.

Lemma warming_step (n : nat) (s : SymbolData.t F (EMA.t F)) (t : Time) (p : F) :
  warming n s -> (n < 398)%nat ->
  update t p s = (exec (update t p) s, Ok tt) /\ warming (S n) (exec (update t p) s).
Proof.
  intros (Hwf & Hws & Hcf & Hcs & Hup & Hsc) Hn.
  unfold exec. rewrite update_spec. cbv zeta.
  rewrite !EMA_fed, !EMA_answer, Hwf, Hws, Hcf, Hcs, Hup.
  assert (Hslow : Nat.leb 300 (S (n - 99)) = false) by (apply Nat.leb_gt; lia).
  rewrite Hslow.
  destruct (Nat.leb 100 (S n)) eqn:Hfast; cbn [fst]; (split; [reflexivity|]);
    unfold warming; cbn; repeat split; auto; try lia.
  - apply Nat.leb_le in Hfast. lia.
  - apply Nat.leb_gt in Hfast. lia.
Qed.

Lemma warming_run (samples : list (sample F)) :
  forall (n : nat) (s : SymbolData.t F (EMA.t F)),
  warming n s -> (n + List.length samples < 399)%nat ->
  outcome (run samples) s = Ok tt /\ warming (n + List.length samples) (exec (run samples) s).
Proof.
  induction samples as [|x xs IH]; intros n s Hw Hn; cbn [List.length] in *.
  - rewrite Nat.add_0_r. split; [reflexivity | exact Hw].
  - destruct (warming_step n s (fst x) (snd x) Hw ltac:(lia)) as [Hret Hw'].
    unfold outcome, exec. rewrite (run_cons_ok x xs s _ Hret).
    replace (n + S (List.length xs))%nat with (S n + List.length xs)%nat by lia.
    apply IH; [exact Hw' | lia].
Qed.

Lemma warming_init (symbol : Symbol) : warming 0 (__init__ symbol).
Proof. repeat split. Qed.

(** C2: with the windows 100 and 300, whatever the samples, every one of
    the calls made before the 300th sample returns normally and leaves
    [is_uptrend] false and [scale] 0. *)
Theorem warm_up_gating (symbol : Symbol) (samples : list (sample F)) :
  (List.length samples < 300)%nat ->
  outcome (run samples) (__init__ (A := EMA.t F) symbol) = Ok tt /\
  is_uptrend (exec (run samples) (__init__ (A := EMA.t F) symbol)) = false /\
  scale (exec (run samples) (__init__ (A := EMA.t F) symbol)) = num_0.
Proof.
  intro Hlen.
  destruct (warming_run samples 0 (__init__ symbol) (warming_init symbol) ltac:(cbn; lia))
    as [Hok (_ & _ & _ & _ & Hup & Hsc)].
  auto.
Qed.

(** C1 fails on the first call already: the fast average has absorbed the
    sample, the slow one has not been fed, as the fast one was not ready. *)
Theorem first_sample_skips_slow (symbol : Symbol) (t : Time) (p : F) :
  EMA.count (fast (exec (update t p) (__init__ symbol))) = 1%nat /\
  EMA.count (slow (exec (update t p) (__init__ symbol))) = 0%nat /\
  slow (exec (update t p) (__init__ symbol)) <> fst (ind_update (slow (__init__ symbol)) t p).
Proof.
  split; [reflexivity|]. split; [reflexivity|].
  cbn. intro Heq. apply (f_equal EMA.count) in Heq. discriminate.
Qed.



End AveragesFacts.

Section OriginFacts.
Context {F : Type} `{Number F} {A : Type} `{Indicator F A}.


End OriginFacts.

(** ** Exact arithmetic *)

Ltac exact_arith :=
  cbn [num_gt num_is_zero num_add num_sub num_mul num_div
       num_0 num_2 num_1_01 num_0_1 num_of_nat exact] in *.

Lemma Qgt_bool_lt (x y : Q) : Qgt_bool x y = true <-> y < x.
Proof.
  unfold Qgt_bool. rewrite negb_true_iff.
  split; intro Hxy.
  - apply Qnot_le_lt. intro Hle. apply Qle_bool_iff in Hle. congruence.
  - destruct (Qle_bool x y) eqn:E; [|reflexivity].
    apply Qle_bool_iff in E. exfalso. exact (Qlt_not_le _ _ Hxy E).
Qed.

Lemma Qgt_bool_le (x y : Q) : Qgt_bool x y = false <-> x <= y.
Proof.
  unfold Qgt_bool. rewrite negb_false_iff. apply Qle_bool_iff.
Qed.



















Lemma ideal_replay_not_exactly_converged :
  ~ (replay_unchanged ideal_seeded 2%Z 5 <-> price_converged ideal_seeded 5).
Proof.
  intros [Hto _].
  assert (Hre : replay_unchanged ideal_seeded 2%Z 5).
  { unfold replay_unchanged. cbv zeta. split; vm_compute; reflexivity. }
  assert (Hne : Qeq_bool (EMA.smoothed (fast ideal_seeded)) 5 = false)
    by (vm_compute; reflexivity).
  destruct (Hto Hre) as [Hf _]. apply Qeq_eq_bool in Hf. congruence.
Qed.


(** ** Runs of the program *)

Lemma spy_flat_reachable : reachable spy_flat.
Proof. apply reachable_run. apply reachable_init. Qed.

Lemma spy_up_reachable : reachable spy_up.
Proof. apply reachable_update. exact spy_flat_reachable. Qed.

Lemma spy_still_reachable : reachable spy_still.
Proof. apply reachable_run. apply reachable_init. Qed.

Lemma spy_high_reachable : reachable spy_high.
Proof. apply reachable_run. apply reachable_init. Qed.

Lemma spy_flat_state :
  EMA.count (fast spy_flat) = 398%nat /\ EMA.count (slow spy_flat) = 299%nat /\
  is_uptrend spy_flat = false /\ scale spy_flat = 0%float.
Proof. vm_compute. repeat split. Qed.

(** The uptrend test is made on rounded numbers: with the fast value at the
    float 1.01 and the slow value at 1 it fails, the product of 1 and the
    tolerance being that same float. *)
Lemma uptrend_test_on_floats :
  num_gt (F := float) 0x1.028f5c28f5c29p+0%float (num_mul 1%float num_1_01) = false.
Proof. vm_compute. reflexivity. Qed.

(** C5 as stated fails: the call of day 400 ends out of the uptrend that
    day 399 had started, so it has changed the flag. *)
Lemma uptrend_flag_reset :
  ~ (is_uptrend spy_down = false ->
     scale spy_down = scale spy_up /\ is_uptrend spy_down = is_uptrend spy_up).
Proof.
  intro Hclaim.
  assert (Hdown : is_uptrend spy_down = false) by (vm_compute; reflexivity).
  destruct (Hclaim Hdown) as [_ Hflag].
  rewrite Hdown in Hflag.
  assert (Hup : is_uptrend spy_up = true) by (vm_compute; reflexivity).
  congruence.
Qed.

(** The call of day 399 on SPY after the days at 0, with the tiny price:
    the fast average becomes the least positive float and the slow one
    stays 0, so the test passes and the sum is not zero, but its half
    rounds to zero and the division raises. *)
Lemma spy_still_day_399 :
  is_uptrend (exec (classify 399%Z tiny) spy_still) = true /\
  current_value (fast (exec (update 399%Z tiny) spy_still)) = 0x1p-1074%float /\
  current_value (slow (exec (update 399%Z tiny) spy_still)) = 0%float /\
  num_is_zero (current_value (fast (exec (update 399%Z tiny) spy_still))
               + current_value (slow (exec (update 399%Z tiny) spy_still)))%num = false /\
  outcome (update 399%Z tiny) spy_still = Raise ZeroDivisionError.
Proof. vm_compute. repeat split. Qed.

(** C4 as stated fails in the floats of the program: a sum of the two
    values that is not zero does not keep the divisor from being zero. *)
Lemma half_sum_underflows :
  ~ (is_uptrend (exec (classify 399%Z tiny) spy_still) = true ->
     num_is_zero (current_value (fast (exec (update 399%Z tiny) spy_still))
                  + current_value (slow (exec (update 399%Z tiny) spy_still)))%num = false ->
     outcome (update 399%Z tiny) spy_still = Ok tt /\
     scale (exec (update 399%Z tiny) spy_still) =
       spread (current_value (fast (exec (update 399%Z tiny) spy_still)))
              (current_value (slow (exec (update 399%Z tiny) spy_still)))).
Proof.
  intro Hclaim.
  destruct spy_still_day_399 as (Hup & _ & _ & Hsum & Hraise).
  destruct (Hclaim Hup Hsum) as [Hok _].
  rewrite Hraise in Hok. discriminate Hok.
Qed.





(** ** The algorithm *)

Section AlgorithmFacts.
Context {F : Type} `{Number F} {A : Type} `{Indicator F A}.
Import Algorithm.

Lemma no_symbol_attribute (x : SymbolData.t F A) :
  getattr x "symbol" = Raise AttributeError.
Proof. reflexivity. Qed.

Lemma with_requests_nil (self : Algorithm.t F A) : with_requests [] self = self.
Proof. destruct self. unfold with_requests. cbn. rewrite app_nil_r. reflexivity. Qed.

Lemma with_requests_app (rs rs' : list (request F)) (self : Algorithm.t F A) :
  with_requests rs' (with_requests rs self) = with_requests (rs ++ rs') self.
Proof. unfold with_requests. cbn. rewrite app_assoc. reflexivity. Qed.

Lemma liquidate_removed (removed : list Security.t) (self : Algorithm.t F A) :
  for_each removed (fun security =>
    if Security.invested security then liquidate (Security.symbol security) else ret tt) self
  = (with_requests
       (map (fun sec => Liquidate (Security.symbol sec)) (filter Security.invested removed))
       self, Ok tt).
Proof.
  revert self. induction removed as [|sec l IH]; intro self.
  - cbn. rewrite with_requests_nil. reflexivity.
  - cbn [for_each filter]. unfold bind at 1.
    destruct (Security.invested sec).
    + change (liquidate (Security.symbol sec) self)
        with (with_requests [Liquidate (Security.symbol sec)] self, Ok tt).
      cbv beta iota. rewrite IH, with_requests_app. reflexivity.
    + unfold ret at 1. apply IH.
Qed.

Lemma allocate_added (added : list Security.t) (self : Algorithm.t F A) :
  for_each added (fun security => set_holdings (Security.symbol security) num_0_1) self
  = (with_requests
       (map (fun sec => SetHoldings (Security.symbol sec) num_0_1) added) self, Ok tt).
Proof.
  revert self. induction added as [|sec l IH]; intro self.
  - cbn. rewrite with_requests_nil. reflexivity.
  - cbn [for_each]. unfold bind at 1.
    change (set_holdings (Security.symbol sec) num_0_1 self)
      with (with_requests [SetHoldings (Security.symbol sec) num_0_1] self, Ok tt).
    cbv beta iota. rewrite IH, with_requests_app. reflexivity.
Qed.

(** C7: the handler returns normally and sends, after what was sent
    before, one liquidation for each removed security that is invested and
    then one target of 10% for each added security, and nothing else: a
    removed security that is not invested gets no request. *)
Theorem on_securities_changed_requests (self : Algorithm.t F A) (changes : SecurityChanges.t) :
  outcome (on_securities_changed changes) self = Ok tt /\
  averages (exec (on_securities_changed changes) self) = averages self /\
  exists sent : list (request F),
    requests (exec (on_securities_changed changes) self) = requests self ++ sent /\
    sent =
      map (fun sec => Liquidate (Security.symbol sec))
        (filter Security.invested (SecurityChanges.removed_securities changes))
      ++ map (fun sec => SetHoldings (Security.symbol sec) num_0_1)
           (SecurityChanges.added_securities changes) /\
    (forall s : Symbol,
       In (Liquidate s) sent <->
       exists sec, In sec (SecurityChanges.removed_securities changes) /\
                   Security.invested sec = true /\ Security.symbol sec = s) /\
    (forall (s : Symbol) (q : F),
       In (SetHoldings s q) sent <->
       q = num_0_1 /\
       exists sec, In sec (SecurityChanges.added_securities changes) /\
                   Security.symbol sec = s).
Proof.
  unfold outcome, exec, on_securities_changed. unfold bind.
  rewrite liquidate_removed, allocate_added, with_requests_app. cbn [fst snd].
  split; [reflexivity|]. split; [reflexivity|].
  eexists. split; [reflexivity|]. split; [reflexivity|]. split.
  - intro s. rewrite in_app_iff, !in_map_iff. split.
    + intros [(sec & Heq & Hin) | (sec & Heq & _)]; [|discriminate].
      apply filter_In in Hin. destruct Hin as [Hin Hinv].
      injection Heq as <-. exists sec. auto.
    + intros (sec & Hin & Hinv & <-). left. exists sec.
      split; [reflexivity|]. apply filter_In. auto.
  - intros s q. rewrite in_app_iff, !in_map_iff. split.
    + intros [(sec & Heq & _) | (sec & Heq & Hin)]; [discriminate|].
      injection Heq as <- <-. split; [reflexivity|]. exists sec. auto.
    + intros (-> & sec & Hin & <-). right. exists sec. auto.
Qed.

Lemma read_raises (x : SymbolData.t F A) (l : list (SymbolData.t F A)) (self : Algorithm.t F A) :
  for_each (x :: l) (fun x =>
    s <- read_symbol x ;; v <- read_value s ;; log (v, SymbolData.scale x)) self
  = (self, Raise AttributeError).
Proof. reflexivity. Qed.

(** The selection never returns a symbol: with an object in the first
    [coarse_count] of the ranking the read of [x.symbol] raises. *)
Lemma selection_returns_only_empty (coarse : list (CoarseFundamental.t F))
    (self : Algorithm.t F A) (l : list (SymbolData.attr (F := F) (A := A))) :
  outcome (coarse_selection_function coarse) self = Ok l -> l = [].
Proof.
  unfold outcome, coarse_selection_function.
  unfold bind at 1.
  destruct (for_each coarse _ self) as [self1 [[]|e]]; cbn [snd]; [|discriminate].
  unfold bind, gets, ret. cbn [fst snd].
  destruct (firstn (coarse_count self1) _) as [|x top] eqn:Etop.
  - cbn [for_each]. unfold ret at 1. cbn [fst snd]. rewrite Etop.
    cbn. intro Hl. injection Hl as <-. reflexivity.
  - rewrite read_raises. discriminate.
Qed.
End AlgorithmFacts.

(** C6 fails as soon as an object is in an uptrend: after 398 flat days,
    each with a selection that returned, the selection of day 399 puts SPY in
    an uptrend and raises AttributeError at [x.symbol], where the ranking as
    specified is the list of SPY alone. *)
Theorem coarse_selection_raises :
  outcome (daily_selections flat_398) Algorithm.initialize = Ok tt /\
  outcome (Algorithm.coarse_selection_function [spy_bar (399%Z, 2%float)]) algorithm_flat
    = Raise AttributeError /\
  ranking_spec (Dict.values (Algorithm.averages
     (exec (Algorithm.coarse_selection_function [spy_bar (399%Z, 2%float)]) algorithm_flat)))
    = [SPY].
Proof. vm_compute. repeat split. Qed.


(** ** The properties on the runs of SPY *)


(** C2 on 299 days at price 7. *)
Lemma warm_up_gating_witness :
  (List.length flat_299 < 300)%nat /\
  (outcome (run flat_299) (__init__ (A := EMA.t float) SPY) = Ok tt /\
   is_uptrend (exec (run flat_299) (__init__ (A := EMA.t float) SPY)) = false /\
   scale (exec (run flat_299) (__init__ (A := EMA.t float) SPY)) = num_0).
Proof.
  assert (Hlen : (List.length flat_299 < 300)%nat)
    by (apply Nat.ltb_lt; vm_compute; reflexivity).
  exact (conj Hlen (warm_up_gating SPY flat_299 Hlen)).
Defined.

(** C3 on day 399 of SPY, where both averages are ready. *)
Lemma update_recomputes_is_uptrend_witness :
  reachable spy_flat /\
  is_uptrend (exec (update 399%Z 2%float) spy_flat) =
    (current_value (fast (exec (update 399%Z 2%float) spy_flat))
       >? current_value (slow (exec (update 399%Z 2%float) spy_flat)) * num_1_01)%num.
Proof.
  assert (Hf : snd (ind_update (fast spy_flat) 399%Z 2%float) = true)
    by (vm_compute; reflexivity).
  assert (Hsl : snd (ind_update (slow spy_flat) 399%Z 2%float) = true)
    by (vm_compute; reflexivity).
  destruct (update_recomputes_is_uptrend spy_flat 399%Z 2%float spy_flat_reachable)
    as (_ & _ & Hboth & _).
  exact (conj spy_flat_reachable (Hboth Hf Hsl)).
Defined.

(** C4, as amended, on day 399 of SPY, which starts an uptrend. *)
Lemma update_sets_scale_witness :
  monotone_ready float (EMA.t float) /\
  reachable spy_flat /\
  is_uptrend (exec (classify 399%Z 2%float) spy_flat) = true /\
  num_is_zero ((current_value (fast (exec (update 399%Z 2%float) spy_flat))
                + current_value (slow (exec (update 399%Z 2%float) spy_flat))) / num_2)%num
    = false /\
  outcome (update 399%Z 2%float) spy_flat = Ok tt /\
  scale (exec (update 399%Z 2%float) spy_flat) =
    ((current_value (fast (exec (update 399%Z 2%float) spy_flat))
      - current_value (slow (exec (update 399%Z 2%float) spy_flat)))
     / ((current_value (fast (exec (update 399%Z 2%float) spy_flat))
         + current_value (slow (exec (update 399%Z 2%float) spy_flat))) / num_2))%num.
Proof.
  assert (Hup : is_uptrend (exec (classify 399%Z 2%float) spy_flat) = true)
    by (vm_compute; reflexivity).
  assert (Hnz : num_is_zero
                  ((current_value (fast (exec (update 399%Z 2%float) spy_flat))
                    + current_value (slow (exec (update 399%Z 2%float) spy_flat))) / num_2)%num
                = false)
    by (vm_compute; reflexivity).
  destruct (update_sets_scale EMA_monotone_ready spy_flat 399%Z 2%float
              spy_flat_reachable Hup Hnz) as (Hok & Hsc & _).
  exact (conj EMA_monotone_ready
          (conj spy_flat_reachable (conj Hup (conj Hnz (conj Hok Hsc))))).
Defined.

(** C5, as amended, on the first day of SPY. *)
Lemma no_uptrend_keeps_scale_witness :
  is_uptrend (exec (update 1%Z 1%float) (__init__ (A := EMA.t float) SPY)) = false /\
  outcome (update 1%Z 1%float) (__init__ (A := EMA.t float) SPY) = Ok tt /\
  scale (exec (update 1%Z 1%float) (__init__ (A := EMA.t float) SPY))
    = scale (__init__ (A := EMA.t float) SPY).
Proof.
  assert (Hup : is_uptrend (exec (update 1%Z 1%float) (__init__ (A := EMA.t float) SPY)) = false)
    by (vm_compute; reflexivity).
  destruct (no_uptrend_keeps_scale (__init__ SPY) 1%Z 1%float Hup) as (Hok & Hsc & _).
  exact (conj Hup (conj Hok Hsc)).
Defined.


(** C9 on day 399 of SPY. *)
Lemma scale_reads_bound_locals_witness :
  monotone_ready float (EMA.t float) /\
  reachable spy_flat /\
  outcome (update 399%Z 2%float) spy_flat <> Raise UnboundLocalError.
Proof.
  destruct (scale_reads_bound_locals EMA_monotone_ready spy_flat 399%Z 2%float
              spy_flat_reachable) as (_ & _ & Hbound & _).
  exact (conj EMA_monotone_ready (conj spy_flat_reachable Hbound)).
Defined.

(** * Further properties *)

(** ** update *)

Section MoreUpdateFacts.
Context {F : Type} `{Number F} {A : Type} `{Indicator F A}.

(** [update] feeds the fast indicator on every call, and the slow one
    exactly on the calls where the fast one answers ready; it never changes
    the symbol or the tolerance of the object. *)
Theorem update_feeds (s : SymbolData.t F A) (t : Time) (v : F) :
  _symbol (exec (update t v) s) = _symbol s /\
  tolerance (exec (update t v) s) = tolerance s /\
  fast (exec (update t v) s) = fst (ind_update (fast s) t v) /\
  slow (exec (update t v) s) =
    (if snd (ind_update (fast s) t v) then fst (ind_update (slow s) t v) else slow s).
Proof.
  unfold exec. rewrite update_spec. cbv zeta.
  repeat match goal with |- context [if ?b then _ else _] => destruct b end;
    repeat split.
Qed.

Lemma feed_spec (s : SymbolData.t F A) (t : Time) (v : F) :
  feed t v s =
    if snd (ind_update (fast s) t v)
    then (set_slow (fst (ind_update (slow s) t v)) (set_fast (fst (ind_update (fast s) t v)) s),
          Ok (snd (ind_update (slow s) t v)))
    else (set_fast (fst (ind_update (fast s) t v)) s, Ok false).
Proof.
  unfold feed, fast_update, slow_update, bind, ret.
  destruct (ind_update (fast s) t v) as [f' rf]; cbn [fst snd].
  destruct rf; [|reflexivity].
  cbn. destruct (ind_update (slow s) t v) as [sl' rs]; reflexivity.
Qed.

(** What [update] can raise, and when. UnboundLocalError: the flag was
    true and the indicators did not both answer ready. ZeroDivisionError:
    both answered ready, the uptrend test passed, and the divisor
    [(fast + slow) / 2.0] is zero in the arithmetic of the program. Nothing
    else. *)
Theorem update_raises_exactly (s : SymbolData.t F A) (t : Time) (v : F) :
  (outcome (update t v) s = Raise UnboundLocalError <->
   is_uptrend s = true /\ outcome (feed t v) s = Ok false) /\
  (outcome (update t v) s = Raise ZeroDivisionError <->
   outcome (feed t v) s = Ok true /\
   (current_value (fast (exec (feed t v) s))
      >? current_value (slow (exec (feed t v) s)) * tolerance s)%num = true /\
   num_is_zero ((current_value (fast (exec (feed t v) s))
                 + current_value (slow (exec (feed t v) s))) / num_2)%num = true) /\
  outcome (update t v) s <> Raise AttributeError /\
  outcome (update t v) s <> Raise KeyError.
Proof.
  unfold outcome, exec. rewrite update_spec, feed_spec. cbv zeta.
  destruct (snd (ind_update (fast s) t v)); cbn [fst snd].
  - destruct (snd (ind_update (slow s) t v)); cbn [fst snd fast slow set_slow set_fast].
    + destruct (num_gt _ _) eqn:Eu.
      * destruct (num_is_zero _) eqn:Ez; cbn [fst snd];
          intuition (try discriminate; try congruence).
      * cbn [fst snd]. intuition (try discriminate; try congruence).
    + destruct (is_uptrend s); cbn [fst snd];
        intuition (try discriminate; try congruence).
  - destruct (is_uptrend s); cbn [fst snd];
      intuition (try discriminate; try congruence).
Qed.

(** A call of [update] that raises has fed the fast indicator all the same
    and leaves [scale] as it was; the flag is unchanged by a call that raises
    UnboundLocalError and is true after one that raises ZeroDivisionError. *)
Theorem update_raise_keeps_scale (s : SymbolData.t F A) (t : Time) (v : F) (e : exn) :
  outcome (update t v) s = Raise e ->
  scale (exec (update t v) s) = scale s /\
  fast (exec (update t v) s) = fst (ind_update (fast s) t v) /\
  (e = UnboundLocalError -> is_uptrend (exec (update t v) s) = is_uptrend s) /\
  (e = ZeroDivisionError -> is_uptrend (exec (update t v) s) = true).
Proof.
  unfold outcome, exec. rewrite update_spec. cbv zeta.
  repeat match goal with |- context [if ?b then _ else _] => destruct b eqn:? end;
    cbn [fst snd]; intro He; try discriminate; injection He as <-;
    repeat split; try discriminate; auto.
Qed.

Lemma update_only_raises (s : SymbolData.t F A) (t : Time) (v : F) (e : exn) :
  outcome (update t v) s = Raise e -> e = UnboundLocalError \/ e = ZeroDivisionError.
Proof.
  unfold outcome. rewrite update_spec. cbv zeta.
  repeat match goal with |- context [if ?b then _ else _] => destruct b end;
    cbn [snd]; intro He; try discriminate; injection He as <-; auto.
Qed.

Lemma update_no_unbound (Hmono : monotone_ready F A) (s : SymbolData.t F A) (t : Time) (v : F) :
  reachable s -> outcome (update t v) s <> Raise UnboundLocalError.
Proof.
  intros Hs. pose proof (uptrend_warmed_up Hmono s Hs) as Hw.
  unfold outcome. rewrite update_spec. cbv zeta.
  destruct (snd (ind_update (fast s) t v)) eqn:Ef.
  - destruct (snd (ind_update (slow s) t v)) eqn:Esl.
    + repeat match goal with |- context [if ?b then _ else _] => destruct b end;
        cbn [snd]; discriminate.
    + destruct (is_uptrend s); [|cbn [snd]; discriminate].
      destruct (Hw eq_refl) as [_ Hsl]. specialize (Hsl t v). congruence.
  - destruct (is_uptrend s); [|cbn [snd]; discriminate].
    destruct (Hw eq_refl) as [Hf _]. specialize (Hf t v). congruence.
Qed.
End MoreUpdateFacts.

(** The call of day 399 on SPY after the days at 0, with the tiny price. *)
Lemma update_raise_keeps_scale_witness :
  outcome (update 399%Z tiny) spy_still = Raise ZeroDivisionError /\
  scale (exec (update 399%Z tiny) spy_still) = scale spy_still /\
  is_uptrend (exec (update 399%Z tiny) spy_still) = true.
Proof.
  assert (Hz : outcome (update 399%Z tiny) spy_still = Raise ZeroDivisionError)
    by (vm_compute; reflexivity).
  destruct (update_raise_keeps_scale spy_still 399%Z tiny ZeroDivisionError Hz)
    as (Hsc & _ & _ & Hup).
  exact (conj Hz (conj Hsc (Hup eq_refl))).
Defined.

(** ** The ranking *)

Section RankingFacts.
Context {F : Type} `{Number F} {A : Type} `{Indicator F A}.
Import Algorithm.

Lemma weakly_orderedb_sound (ks : list F) :
  weakly_orderedb ks = true -> weakly_ordered ks.
Proof.
  unfold weakly_orderedb. rewrite forallb_forall. intro Hall. split.
  - intros a b Ha Hb Hab. specialize (Hall a Ha). rewrite forallb_forall in Hall.
    specialize (Hall b Hb). apply andb_true_iff in Hall. destruct Hall as [Has _].
    rewrite Hab in Has. cbn in Has. apply negb_true_iff in Has. exact Has.
  - intros a b c Ha Hb Hc Hca. specialize (Hall a Ha). rewrite forallb_forall in Hall.
    specialize (Hall b Hb). apply andb_true_iff in Hall. destruct Hall as [_ Hnt].
    rewrite forallb_forall in Hnt. specialize (Hnt c Hc).
    rewrite Hca in Hnt. cbn in Hnt. apply orb_true_iff in Hnt. exact Hnt.
Qed.

Lemma weakly_ordered_incl (ks ks' : list F) :
  incl ks' ks -> weakly_ordered ks -> weakly_ordered ks'.
Proof.
  intros Hincl [Has Hnt]. split.
  - intros a b Ha Hb. apply Has; apply Hincl; assumption.
  - intros a b c Ha Hb Hc. apply Hnt; apply Hincl; assumption.
Qed.

Lemma insert_desc_perm (x : SymbolData.t F A) (l : list (SymbolData.t F A)) :
  Permutation (insert_desc x l) (x :: l).
Proof.
  induction l as [|y l IH]; cbn [insert_desc]; [reflexivity|].
  destruct (scale y >? scale x)%num; [|reflexivity].
  rewrite IH. apply perm_swap.
Qed.

Lemma sort_perm (l : list (SymbolData.t F A)) :
  Permutation (sort_by_scale_reverse l) l.
Proof.
  induction l as [|x l IH]; cbn; [constructor|].
  rewrite insert_desc_perm. constructor. exact IH.
Qed.

Lemma insert_desc_descending (x : SymbolData.t F A) (l : list (SymbolData.t F A)) :
  weakly_ordered (map scale (x :: l)) ->
  descending l -> descending (insert_desc x l).
Proof.
  unfold descending. induction l as [|y l IH]; intros Hord Hl; cbn [insert_desc].
  - repeat constructor.
  - inversion Hl as [|? ? Hl' Hy]; subst.
    destruct Hord as [Has Hnt].
    assert (Hx : In (scale x) (map scale (x :: y :: l))) by (left; reflexivity).
    assert (Hyin : In (scale y) (map scale (x :: y :: l))) by (right; left; reflexivity).
    destruct (scale y >? scale x)%num eqn:E.
    + constructor.
      * apply IH; [|exact Hl'].
        apply (weakly_ordered_incl (map scale (x :: y :: l))); [|split; assumption].
        intros k [Hk | Hk]; [left; exact Hk | right; right; exact Hk].
      * apply (Permutation_Forall (Permutation_sym (insert_desc_perm x l))).
        constructor; [|exact Hy].
        apply (Has (scale y) (scale x) Hyin Hx E).
    + constructor; [exact Hl|].
      constructor; [exact E|].
      rewrite Forall_forall in Hy |- *. intros z Hz.
      destruct (scale z >? scale x)%num eqn:Ezx; [|reflexivity].
      assert (Hzin : In (scale z) (map scale (x :: y :: l)))
        by (right; right; apply in_map; exact Hz).
      destruct (Hnt (scale x) (scale y) (scale z) Hx Hyin Hzin Ezx) as [Hzy | Hyx].
      * rewrite (Hy z Hz) in Hzy. discriminate.
      * congruence.
Qed.

Lemma sort_descending (l : list (SymbolData.t F A)) :
  weakly_ordered (map scale l) -> descending (sort_by_scale_reverse l).
Proof.
  induction l as [|x l IH]; intro Hord; cbn.
  - constructor.
  - apply insert_desc_descending.
    + apply (weakly_ordered_incl (map scale (x :: l))); [|exact Hord].
      intros k [Hk | Hk]; [left; exact Hk|]. right.
      apply in_map_iff in Hk. destruct Hk as (y & <- & Hy). apply in_map.
      apply (Permutation_in _ (sort_perm l)). exact Hy.
    + apply IH. apply (weakly_ordered_incl (map scale (x :: l))); [|exact Hord].
      intros k Hk. right. exact Hk.
Qed.

Lemma insert_desc_same_scale (q : F) (x : SymbolData.t F A) (l : list (SymbolData.t F A)) :
  weakly_ordered (q :: map scale (x :: l)) ->
  filter (same_scale q) (insert_desc x l) = filter (same_scale q) (x :: l).
Proof.
  intro Hord. induction l as [|y l IH]; [reflexivity|].
  cbn [insert_desc]. destruct (scale y >? scale x)%num eqn:E; [|reflexivity].
  assert (Hsub : weakly_ordered (q :: map scale (x :: l))).
  { apply (weakly_ordered_incl (q :: map scale (x :: y :: l))); [|exact Hord].
    intros k [Hk | [Hk | Hk]]; [left; exact Hk | right; left; exact Hk
                               | right; right; right; exact Hk]. }
  cbn [filter] in *. rewrite (IH Hsub).
  destruct (same_scale q x) eqn:Ex; [|reflexivity].
  destruct (same_scale q y) eqn:Ey; [|reflexivity].
  unfold same_scale in Ex, Ey.
  apply andb_true_iff in Ex, Ey. destruct Ex as [_ Hqx], Ey as [Hyq _].
  apply negb_true_iff in Hqx, Hyq.
  destruct Hord as [_ Hnt].
  destruct (Hnt (scale x) q (scale y)) as [Hc | Hc];
    [right; left; reflexivity | left; reflexivity | right; right; left; reflexivity
    | exact E | congruence | congruence].
Qed.

Lemma sort_same_scale (q : F) (l : list (SymbolData.t F A)) :
  weakly_ordered (q :: map scale l) ->
  filter (same_scale q) (sort_by_scale_reverse l) = filter (same_scale q) l.
Proof.
  induction l as [|x l IH]; intro Hord; [reflexivity|].
  cbn [sort_by_scale_reverse fold_right].
  fold (sort_by_scale_reverse l).
  rewrite insert_desc_same_scale.
  - cbn [filter]. rewrite IH; [reflexivity|].
    apply (weakly_ordered_incl (q :: map scale (x :: l))); [|exact Hord].
    intros k [Hk | Hk]; [left; exact Hk | right; right; exact Hk].
  - apply (weakly_ordered_incl (q :: map scale (x :: l))); [|exact Hord].
    intros k [Hk | [Hk | Hk]]; [left; exact Hk | right; left; exact Hk|].
    right; right. apply in_map_iff in Hk. destruct Hk as (y & <- & Hy). apply in_map.
    apply (Permutation_in _ (sort_perm l)). exact Hy.
Qed.

Lemma descending_app (l1 l2 : list (SymbolData.t F A)) :
  descending (l1 ++ l2) ->
  descending l1 /\
  Forall (fun x => Forall (fun y => (scale y >? scale x)%num = false) l2) l1.
Proof.
  unfold descending. induction l1 as [|x l1 IH]; intro Hs; [split; constructor|].
  cbn in Hs. inversion Hs as [|? ? Hs' Hx]; subst.
  destruct (IH Hs') as [Hd Hf]. apply Forall_app in Hx. destruct Hx as [Hx1 Hx2].
  split; constructor; assumption.
Qed.

Lemma top_values_members (self : Algorithm.t F A) :
  (List.length (top_values self) <= coarse_count self)%nat /\
  Forall (fun x => is_uptrend x = true /\ In x (Dict.values (averages self)))
    (top_values self) /\
  Permutation (top_values self ++ skipn (coarse_count self) (ranked self))
    (filter is_uptrend (Dict.values (averages self))).
Proof.
  unfold top_values.
  pose proof (sort_perm (filter is_uptrend (Dict.values (averages self)))) as Hperm.
  fold (ranked self) in Hperm.
  split; [apply firstn_le_length|]. split.
  - apply Forall_forall. intros x Hx.
    assert (Hin : In x (ranked self)).
    { rewrite <- (firstn_skipn (coarse_count self) (ranked self)).
      apply in_or_app. left. exact Hx. }
    apply (Permutation_in _ Hperm) in Hin. apply filter_In in Hin. tauto.
  - rewrite firstn_skipn. exact Hperm.
Qed.

Lemma top_values_descending (self : Algorithm.t F A) :
  weakly_ordered (map scale (Dict.values (averages self))) ->
  descending (top_values self) /\
  Forall (fun x => Forall (fun y => (scale y >? scale x)%num = false)
                     (skipn (coarse_count self) (ranked self)))
    (top_values self).
Proof.
  intro Hord. unfold top_values.
  assert (Hdesc : descending (ranked self)).
  { apply sort_descending.
    apply (weakly_ordered_incl (map scale (Dict.values (averages self)))); [|exact Hord].
    intros k Hk. apply in_map_iff in Hk. destruct Hk as (y & <- & Hy).
    apply in_map. apply filter_In in Hy. apply Hy. }
  rewrite <- (firstn_skipn (coarse_count self) (ranked self)) in Hdesc.
  exact (descending_app _ _ Hdesc).
Qed.

End RankingFacts.

(** In exact arithmetic [>] orders any numbers, so the sort always gives
    the greatest scale first there. *)
Lemma exact_weakly_ordered (ks : list Q) : weakly_ordered ks.
Proof.
  split.
  - intros a b _ _ Hab. exact_arith. apply Qgt_bool_lt in Hab.
    apply Qgt_bool_le. apply Qlt_le_weak. exact Hab.
  - intros a b c _ _ _ Hca. exact_arith. apply Qgt_bool_lt in Hca.
    destruct (Qlt_le_dec b c) as [Hbc | Hcb].
    + left. apply Qgt_bool_lt. exact Hbc.
    + right. apply Qgt_bool_lt. eapply Qlt_le_trans; eassumption.
Qed.

(** The sort gives the same objects, and gives them greatest scale
    first when [>] orders their scales, as it does for floats none of which
    is NaN; in exact arithmetic it always does. *)
Theorem sort_by_scale_reverse_sorted :
  (forall (F : Type) (NF : Number F) (A : Type) (l : list (SymbolData.t F A)),
     Permutation (Algorithm.sort_by_scale_reverse l) l /\
     (weakly_ordered (map scale l) -> descending (Algorithm.sort_by_scale_reverse l))) /\
  (forall (A : Type) (l : list (SymbolData.t Q A)),
     descending (Algorithm.sort_by_scale_reverse l)).
Proof.
  split.
  - intros F NF A l. split; [apply sort_perm | apply sort_descending].
  - intros A l. apply sort_descending. apply exact_weakly_ordered.
Qed.

(** The sort is stable: the objects of any one scale come out in the
    order they went in, when [>] orders that scale and theirs; in exact
    arithmetic it always does. *)
Theorem sort_by_scale_reverse_stable :
  (forall (F : Type) (NF : Number F) (A : Type) (q : F) (l : list (SymbolData.t F A)),
     weakly_ordered (q :: map scale l) ->
     filter (same_scale q) (Algorithm.sort_by_scale_reverse l) = filter (same_scale q) l) /\
  (forall (A : Type) (q : Q) (l : list (SymbolData.t Q A)),
     filter (same_scale q) (Algorithm.sort_by_scale_reverse l) = filter (same_scale q) l).
Proof.
  split.
  - intros F NF A q l. apply sort_same_scale.
  - intros A q l. apply sort_same_scale. apply exact_weakly_ordered.
Qed.

(** The slice taken by the selection: at most [coarse_count] objects,
    each tracked and in an uptrend, and with the rest they are the tracked
    objects in an uptrend; when [>] orders the scales of the tracked
    objects, as it always does in exact arithmetic, the slice has the
    greatest scale first and no ranked object left out has a greater scale
    than one taken. *)
Theorem top_values_ranked :
  (forall (F : Type) (NF : Number F) (A : Type) (self : Algorithm.t F A),
     (List.length (top_values self) <= Algorithm.coarse_count self)%nat /\
     Forall (fun x => is_uptrend x = true /\ In x (Dict.values (Algorithm.averages self)))
       (top_values self) /\
     Permutation (top_values self ++ skipn (Algorithm.coarse_count self) (ranked self))
       (filter is_uptrend (Dict.values (Algorithm.averages self))) /\
     (weakly_ordered (map scale (Dict.values (Algorithm.averages self))) ->
      descending (top_values self) /\
      Forall (fun x => Forall (fun y => (scale y >? scale x)%num = false)
                         (skipn (Algorithm.coarse_count self) (ranked self)))
        (top_values self))) /\
  (forall (A : Type) (self : Algorithm.t Q A),
     descending (top_values self) /\
     Forall (fun x => Forall (fun y => (scale y >? scale x)%num = false)
                        (skipn (Algorithm.coarse_count self) (ranked self)))
       (top_values self)).
Proof.
  split.
  - intros F NF A self.
    destruct (top_values_members self) as (Hlen & Hin & Hperm).
    repeat split; try assumption; apply top_values_descending; assumption.
  - intros A self. apply top_values_descending. apply exact_weakly_ordered.
Qed.

Lemma three_ranked_ordered :
  weakly_ordered (0x1.999999999999ap-4%float :: map scale three_ranked).
Proof. apply weakly_orderedb_sound. vm_compute. reflexivity. Qed.

(** The three objects: scales 0.05, 0.20, 0.10 come out as 0.20, 0.10,
    0.05. *)
Lemma sort_by_scale_reverse_sorted_witness :
  weakly_ordered (map scale three_ranked) /\
  descending (Algorithm.sort_by_scale_reverse three_ranked).
Proof.
  assert (Hord : weakly_ordered (map scale three_ranked))
    by (apply weakly_orderedb_sound; vm_compute; reflexivity).
  destruct sort_by_scale_reverse_sorted as [Hany _].
  destruct (Hany float binary64 (EMA.t float) three_ranked) as [_ Hdesc].
  exact (conj Hord (Hdesc Hord)).
Defined.

Lemma sort_by_scale_reverse_stable_witness :
  weakly_ordered (0x1.999999999999ap-4%float :: map scale three_ranked) /\
  filter (same_scale 0x1.999999999999ap-4%float) (Algorithm.sort_by_scale_reverse three_ranked)
    = filter (same_scale 0x1.999999999999ap-4%float) three_ranked.
Proof.
  destruct sort_by_scale_reverse_stable as [Hany _].
  exact (conj three_ranked_ordered
           (Hany float binary64 (EMA.t float) 0x1.999999999999ap-4%float three_ranked
              three_ranked_ordered)).
Defined.

(** The three objects with two to select: the slice holds the objects of
    scales 0.20 and 0.10. *)
Lemma top_values_ranked_witness :
  weakly_ordered (map scale (Dict.values (Algorithm.averages algorithm_three))) /\
  (List.length (top_values algorithm_three) <= Algorithm.coarse_count algorithm_three)%nat /\
  descending (top_values algorithm_three).
Proof.
  assert (Hord : weakly_ordered (map scale (Dict.values (Algorithm.averages algorithm_three))))
    by (apply weakly_orderedb_sound; vm_compute; reflexivity).
  destruct top_values_ranked as [Hany _].
  destruct (Hany float binary64 (EMA.t float) algorithm_three) as (Hlen & _ & _ & Hdesc).
  destruct (Hdesc Hord) as [Htop _].
  exact (conj Hord (conj Hlen Htop)).
Defined.
(** ** The dict *)

Section DictFacts.
Context {V : Type}.

Lemma Symbol_eqb_eq (a b : Symbol) : Symbol_eqb a b = true <-> a = b.
Proof.
  unfold Symbol_eqb. rewrite String.eqb_eq. destruct a, b; cbn.
  split; intro Hab; [subst; reflexivity | injection Hab; auto].
Qed.

Lemma Symbol_eqb_refl (a : Symbol) : Symbol_eqb a a = true.
Proof. apply Symbol_eqb_eq. reflexivity. Qed.

Lemma get_set_same (d : Dict.t V) (k : Symbol) (v : V) :
  Dict.get (Dict.set d k v) k = Some v.
Proof.
  induction d as [|[k' v'] d IH]; cbn.
  - rewrite Symbol_eqb_refl. reflexivity.
  - destruct (Symbol_eqb k k') eqn:E; cbn; rewrite E; [reflexivity | exact IH].
Qed.

Lemma get_set_other (d : Dict.t V) (k k' : Symbol) (v : V) :
  k' <> k -> Dict.get (Dict.set d k v) k' = Dict.get d k'.
Proof.
  intro Hne. induction d as [|[k0 v0] d IH]; cbn.
  - destruct (Symbol_eqb k' k) eqn:E; [|reflexivity].
    apply Symbol_eqb_eq in E. contradiction.
  - destruct (Symbol_eqb k k0) eqn:E; cbn.
    + apply Symbol_eqb_eq in E. subst k0.
      destruct (Symbol_eqb k' k) eqn:E'; [|reflexivity].
      apply Symbol_eqb_eq in E'. contradiction.
    + destruct (Symbol_eqb k' k0); [reflexivity | exact IH].
Qed.

Lemma set_set (d : Dict.t V) (k : Symbol) (v w : V) :
  Dict.set (Dict.set d k v) k w = Dict.set d k w.
Proof.
  induction d as [|[k' v'] d IH]; cbn.
  - rewrite Symbol_eqb_refl. reflexivity.
  - destruct (Symbol_eqb k k') eqn:E; cbn; rewrite E; [reflexivity|].
    rewrite IH. reflexivity.
Qed.

Lemma keys_set (d : Dict.t V) (k : Symbol) (v : V) :
  map fst (Dict.set d k v) =
    if Dict.contains d k then map fst d else map fst d ++ [k].
Proof.
  unfold Dict.contains. induction d as [|[k' v'] d IH]; cbn; [reflexivity|].
  destruct (Symbol_eqb k k') eqn:E; cbn; [reflexivity|].
  rewrite IH. destruct (Dict.get d k); reflexivity.
Qed.

Lemma Forall_set (P : Symbol * V -> Prop) (d : Dict.t V) (k : Symbol) (v : V) :
  Forall P d -> P (k, v) -> Forall P (Dict.set d k v).
Proof.
  intros Hd Hk. induction d as [|[k' v'] d IH]; cbn.
  - constructor; [exact Hk | constructor].
  - inversion Hd as [|? ? Hhd Htl]; subst.
    destruct (Symbol_eqb k k') eqn:E.
    + apply Symbol_eqb_eq in E. subst k'. constructor; assumption.
    + constructor; [exact Hhd | apply IH; exact Htl].
Qed.

Lemma get_In (d : Dict.t V) (k : Symbol) (v : V) :
  Dict.get d k = Some v -> In (k, v) d.
Proof.
  induction d as [|[k' v'] d IH]; cbn; [discriminate|].
  destruct (Symbol_eqb k k') eqn:E.
  - apply Symbol_eqb_eq in E. subst k'. intro Hv. injection Hv as <-. left. reflexivity.
  - intro Hv. right. apply IH. exact Hv.
Qed.

End DictFacts.

(** ** coarse_selection_function and on_securities_changed *)

Section SelectionFacts.
Context {F : Type} `{Number F} {A : Type} `{Indicator F A}.
Import Algorithm.

(** One entry of the coarse data: the object of its symbol, a new one when
    the symbol is seen for the first time, goes through one [update] and is
    stored under the symbol; the outcome is that of the [update]. *)
Lemma track_spec (cf : CoarseFundamental.t F) (self : Algorithm.t F A) :
  track cf self =
    (set_averages
       (Dict.set (averages self) (CoarseFundamental.symbol cf)
          (exec (update (CoarseFundamental.end_time cf) (CoarseFundamental.adjusted_price cf))
             (current_object (averages self) (CoarseFundamental.symbol cf))))
       self,
     outcome (update (CoarseFundamental.end_time cf) (CoarseFundamental.adjusted_price cf))
       (current_object (averages self) (CoarseFundamental.symbol cf))).
Proof.
  unfold track, on_average, current_object, Dict.contains, bind, gets, modify, ret,
    exec, outcome.
  destruct (Dict.get (averages self) (CoarseFundamental.symbol cf)) as [x|] eqn:E;
    cbn [negb fst snd averages set_averages].
  - rewrite E.
    destruct (update _ _ x) as [x' r]. reflexivity.
  - rewrite get_set_same.
    destruct (update _ _ (__init__ _)) as [x' r]. cbn [fst snd].
    rewrite set_set. reflexivity.
Qed.

Lemma selection_unfold (coarse : list (CoarseFundamental.t F)) :
  coarse_selection_function (A := A) coarse =
    (for_each coarse track ;;
     values <- gets ranked ;;
     top <- gets (fun self => firstn (coarse_count self) values) ;;
     for_each top (fun x =>
       s <- read_symbol x ;; v <- read_value s ;; log (v, scale x)) ;;
     top <- gets (fun self => firstn (coarse_count self) values) ;;
     comprehension top read_symbol).
Proof. reflexivity. Qed.

Lemma for_each_cons {S B : Type} (x : B) (xs : list B) (body : B -> M S unit) (s : S) :
  for_each (x :: xs) body s =
    match body x s with
    | (s', Ok _) => for_each xs body s'
    | (s', Raise e) => (s', Raise e)
    end.
Proof. reflexivity. Qed.

(** A property kept by every step of a loop holds after the loop, whether
    the loop completes or a step raises. *)
Lemma for_each_keeps {S B : Type} (P : S -> Prop) (body : B -> M S unit) :
  (forall x s, P s -> P (exec (body x) s)) ->
  forall xs s, P s -> P (exec (for_each xs body) s).
Proof.
  intros Hstep xs. induction xs as [|x xs IH]; intros s Hs; [exact Hs|].
  unfold exec. rewrite for_each_cons.
  specialize (Hstep x s Hs). unfold exec in Hstep.
  destruct (body x s) as [s' [[]|e]]; cbn [fst] in *.
  - apply IH. exact Hstep.
  - exact Hstep.
Qed.

(** After the loop, the rest of the selection changes nothing: it returns the
    empty list when the slice is empty and raises at the first [x.symbol]
    otherwise. *)
Lemma selection_after_loop (coarse : list (CoarseFundamental.t F)) (self : Algorithm.t F A) :
  coarse_selection_function coarse self =
    match for_each coarse track self with
    | (self1, Ok _) =>
        (self1, match top_values self1 with
                | [] => Ok []
                | _ :: _ => Raise AttributeError
                end)
    | (self1, Raise e) => (self1, Raise e)
    end.
Proof.
  rewrite selection_unfold. unfold bind at 1.
  destruct (for_each coarse track self) as [self1 [[]|e]]; [|reflexivity].
  unfold bind, gets, top_values. cbn [fst snd].
  destruct (firstn (coarse_count self1) (ranked self1)) as [|x top] eqn:Etop.
  - cbn. rewrite Etop. reflexivity.
  - reflexivity.
Qed.
End SelectionFacts.

Section SelectionProperties.
Context {F : Type} `{Number F} {A : Type} `{Indicator F A}.
Import Algorithm.

Lemma contains_In (d : Dict.t (SymbolData.t F A)) (k : Symbol) :
  Dict.contains d k = true <-> In k (map fst d).
Proof.
  unfold Dict.contains. induction d as [|[k' v'] d IH]; cbn.
  - split; [discriminate | contradiction].
  - destruct (Symbol_eqb k k') eqn:E.
    + apply Symbol_eqb_eq in E. subst. split; auto.
    + rewrite IH. split; [auto | intros [Heq | Hin]; [|exact Hin]].
      subst k'. rewrite Symbol_eqb_refl in E. discriminate.
Qed.

Lemma contains_set (d : Dict.t (SymbolData.t F A)) (k k' : Symbol) (v : SymbolData.t F A) :
  Dict.contains (Dict.set d k v) k' = Symbol_eqb k' k || Dict.contains d k'.
Proof.
  unfold Dict.contains. destruct (Symbol_eqb k' k) eqn:E; cbn [orb].
  - apply Symbol_eqb_eq in E. subst k'. rewrite get_set_same. reflexivity.
  - rewrite get_set_other; [reflexivity|].
    intro Heq. subst k'. rewrite Symbol_eqb_refl in E. discriminate.
Qed.

Lemma track_frame (cf : CoarseFundamental.t F) (self : Algorithm.t F A) :
  coarse_count (exec (track cf) self) = coarse_count self /\
  logged (exec (track cf) self) = logged self /\
  requests (exec (track cf) self) = requests self.
Proof. unfold exec. rewrite track_spec. repeat split. Qed.

Lemma loop_only_raises (coarse : list (CoarseFundamental.t F)) (self : Algorithm.t F A) (e : exn) :
  outcome (for_each coarse track) self = Raise e ->
  e = UnboundLocalError \/ e = ZeroDivisionError.
Proof.
  revert self. induction coarse as [|cf coarse IH]; intro self; [discriminate|].
  unfold outcome. rewrite for_each_cons, track_spec.
  destruct (outcome (update _ _) _) as [[]|e'] eqn:Eo.
  - apply IH.
  - cbn [snd]. intro He. injection He as <-. exact (update_only_raises _ _ _ _ Eo).
Qed.

Lemma selection_state (coarse : list (CoarseFundamental.t F)) (self : Algorithm.t F A) :
  exec (coarse_selection_function coarse) self = exec (for_each coarse track) self.
Proof.
  unfold exec. rewrite selection_after_loop.
  destruct (for_each coarse track self) as [self1 [[]|e]]; reflexivity.
Qed.

(** The selection never returns a symbol and never logs: it returns the
    empty list or raises, never KeyError, and leaves the log, the requests
    and [coarse_count] as they were. *)
Theorem selection_returns_nothing (coarse : list (CoarseFundamental.t F)) (self : Algorithm.t F A) :
  (outcome (coarse_selection_function coarse) self = Ok [] \/
   outcome (coarse_selection_function coarse) self = Raise AttributeError \/
   outcome (coarse_selection_function coarse) self = Raise UnboundLocalError \/
   outcome (coarse_selection_function coarse) self = Raise ZeroDivisionError) /\
  logged (exec (coarse_selection_function coarse) self) = logged self /\
  requests (exec (coarse_selection_function coarse) self) = requests self /\
  coarse_count (exec (coarse_selection_function coarse) self) = coarse_count self.
Proof.
  split.
  - unfold outcome. rewrite selection_after_loop.
    pose proof (loop_only_raises coarse self) as Hloop. unfold outcome in Hloop.
    destruct (for_each coarse track self) as [self1 [[]|e]]; cbn [snd] in *.
    + destruct (top_values self1); auto.
    + destruct (Hloop e eq_refl) as [-> | ->]; auto.
  - rewrite selection_state.
    apply (for_each_keeps
             (fun s => logged s = logged self /\ requests s = requests self /\
                       coarse_count s = coarse_count self) track);
      [|repeat split].
    intros cf s (Hl & Hr & Hc). destruct (track_frame cf s) as (Hc' & Hl' & Hr').
    repeat split; congruence.
Qed.

Lemma track_keys (cf : CoarseFundamental.t F) (self : Algorithm.t F A) :
  tracked_symbols (exec (track cf) self) =
    if Dict.contains (averages self) (CoarseFundamental.symbol cf)
    then tracked_symbols self
    else tracked_symbols self ++ [CoarseFundamental.symbol cf].
Proof.
  unfold exec, tracked_symbols. rewrite track_spec. cbn [fst averages set_averages].
  apply keys_set.
Qed.

(** The selection never drops a tracked symbol and never reorders the
    tracked symbols: the symbols it tracks afterwards are the ones tracked
    before, in the same order, followed by symbols of the coarse data. *)
Theorem selection_keeps_tracked (coarse : list (CoarseFundamental.t F)) (self : Algorithm.t F A) :
  exists new : list Symbol,
    tracked_symbols (exec (coarse_selection_function coarse) self)
      = tracked_symbols self ++ new /\
    Forall (fun k => In k (map CoarseFundamental.symbol coarse)) new.
Proof.
  rewrite selection_state.
  revert self. induction coarse as [|cf coarse IH]; intro self.
  - exists []. split; [symmetry; apply app_nil_r | constructor].
  - assert (Hstep : exists new1,
              tracked_symbols (exec (track cf) self) = tracked_symbols self ++ new1 /\
              Forall (fun k => In k (map CoarseFundamental.symbol (cf :: coarse))) new1).
    { rewrite track_keys. destruct (Dict.contains _ _).
      - exists []. split; [symmetry; apply app_nil_r | constructor].
      - exists [CoarseFundamental.symbol cf]. split; [reflexivity|].
        constructor; [left; reflexivity | constructor]. }
    destruct Hstep as (new1 & Hk1 & Hin1).
    unfold exec in *. rewrite for_each_cons.
    destruct (track cf self) as [self1 [[]|e]]; cbn [fst] in *.
    + destruct (IH self1) as (new2 & Hk2 & Hin2).
      exists (new1 ++ new2). split.
      * rewrite Hk2, Hk1, app_assoc. reflexivity.
      * apply Forall_app. split; [exact Hin1|].
        eapply Forall_impl; [|exact Hin2]. intros k Hk. right. exact Hk.
    + exists new1. split; assumption.
Qed.

Lemma track_keeps_ok (cf : CoarseFundamental.t F) (self : Algorithm.t F A) :
  tracked_ok self -> tracked_ok (exec (track cf) self).
Proof.
  intros [Hnd Hall]. split.
  - rewrite track_keys.
    destruct (Dict.contains _ _) eqn:E; [exact Hnd|].
    apply NoDup_app; [exact Hnd | repeat constructor; intros [] |].
    intros k Hk [<- | []].
    apply contains_In in Hk. congruence.
  - unfold exec. rewrite track_spec. cbn [fst averages set_averages].
    apply Forall_set; [exact Hall|]. cbn [fst snd].
    fold (exec (update (CoarseFundamental.end_time cf) (CoarseFundamental.adjusted_price cf))
            (current_object (averages self) (CoarseFundamental.symbol cf))).
    rewrite update__symbol.
    assert (Hcur : _symbol (current_object (averages self) (CoarseFundamental.symbol cf))
                   = CoarseFundamental.symbol cf /\
                   reachable (current_object (averages self) (CoarseFundamental.symbol cf))).
    { unfold current_object.
      destruct (Dict.get _ _) as [x|] eqn:E.
      - apply get_In in E. rewrite Forall_forall in Hall. exact (Hall _ E).
      - split; [reflexivity | apply reachable_init]. }
    destruct Hcur as [Hsym Hre]. split; [exact Hsym|].
    apply reachable_update. exact Hre.
Qed.

Lemma loop_keeps_ok (coarse : list (CoarseFundamental.t F)) (self : Algorithm.t F A) :
  tracked_ok self -> tracked_ok (exec (for_each coarse track) self).
Proof.
  intro Hok. apply (for_each_keeps tracked_ok track); [|exact Hok].
  intros cf s. apply track_keeps_ok.
Qed.

(** The selection keeps the tracking well formed: after it, as before, no
    symbol is tracked twice and every tracked object sits under the symbol
    it was built with and has only gone through calls of [update]. *)
Theorem selection_keeps_tracked_ok (coarse : list (CoarseFundamental.t F)) (self : Algorithm.t F A) :
  tracked_ok self ->
  tracked_ok (exec (coarse_selection_function coarse) self).
Proof.
  intro Hok. rewrite selection_state. apply loop_keeps_ok. exact Hok.
Qed.

Lemma tracked_ok_initialize : tracked_ok (initialize (F := F) (A := A)).
Proof. split; constructor. Qed.

Lemma current_object_reachable (self : Algorithm.t F A) (k : Symbol) :
  tracked_ok self -> reachable (current_object (averages self) k).
Proof.
  intros [_ Hall]. unfold current_object.
  destruct (Dict.get _ _) as [x|] eqn:E; [|apply reachable_init].
  apply get_In in E. rewrite Forall_forall in Hall. apply (Hall _ E).
Qed.

(** With monotone readiness, a selection on a well-formed tracking never
    raises UnboundLocalError. *)
Theorem selection_no_unbound_local (Hmono : monotone_ready F A)
    (coarse : list (CoarseFundamental.t F)) (self : Algorithm.t F A) :
  tracked_ok self ->
  outcome (coarse_selection_function coarse) self <> Raise UnboundLocalError.
Proof.
  intro Hok. unfold outcome. rewrite selection_after_loop.
  assert (Hloop : outcome (for_each coarse track) self <> Raise UnboundLocalError).
  { revert self Hok. induction coarse as [|cf coarse IH]; intros self Hok; [discriminate|].
    pose proof (track_keeps_ok cf self Hok) as Hok'.
    unfold outcome, exec in *. rewrite for_each_cons.
    rewrite track_spec in *. cbn [fst] in Hok'.
    destruct (outcome (update _ _) _) as [[]|e] eqn:Eo.
    - apply IH. exact Hok'.
    - cbn [snd]. intro He. injection He as ->.
      exact (update_no_unbound Hmono _ _ _ (current_object_reachable self _ Hok) Eo). }
  unfold outcome in Hloop.
  destruct (for_each coarse track self) as [self1 [[]|e]]; cbn [snd] in *.
  - destruct (top_values self1); discriminate.
  - intro He. apply Hloop. injection He as ->. reflexivity.
Qed.

Lemma track_other (cf : CoarseFundamental.t F) (self : Algorithm.t F A) (k : Symbol) :
  CoarseFundamental.symbol cf <> k ->
  Dict.get (averages (exec (track cf) self)) k = Dict.get (averages self) k.
Proof.
  intro Hne. unfold exec. rewrite track_spec. cbn [fst averages set_averages].
  apply get_set_other. congruence.
Qed.

(** The selection touches only the objects of the symbols in the coarse
    data: the object tracked under any other symbol is left as it was. *)
Theorem selection_touches_only_batch (coarse : list (CoarseFundamental.t F))
    (self : Algorithm.t F A) (k : Symbol) :
  ~ In k (map CoarseFundamental.symbol coarse) ->
  Dict.get (averages (exec (coarse_selection_function coarse) self)) k
    = Dict.get (averages self) k.
Proof.
  intro Hout. rewrite selection_state.
  revert self. induction coarse as [|cf coarse IH]; intro self; [reflexivity|].
  cbn [map] in Hout.
  assert (Hne : CoarseFundamental.symbol cf <> k) by (intro Heq; apply Hout; left; exact Heq).
  assert (Hrest : ~ In k (map CoarseFundamental.symbol coarse)) by (intro Hin; apply Hout; right; exact Hin).
  pose proof (track_other cf self k Hne) as Hstep.
  unfold exec in *. rewrite for_each_cons.
  destruct (track cf self) as [self1 [[]|e]]; cbn [fst] in *.
  - rewrite (IH Hrest). exact Hstep.
  - exact Hstep.
Qed.

Lemma loop_tracks (coarse : list (CoarseFundamental.t F)) (self : Algorithm.t F A) :
  outcome (for_each coarse track) self = Ok tt ->
  Forall (fun cf => Dict.contains (averages (exec (for_each coarse track) self))
                      (CoarseFundamental.symbol cf) = true) coarse.
Proof.
  revert self. induction coarse as [|cf coarse IH]; intros self Hok; [constructor|].
  assert (Hkeep : forall l s k, Dict.contains (averages s) k = true ->
            Dict.contains (averages (exec (for_each l track) s)) k = true).
  { intros l s k Hk.
    apply (for_each_keeps (fun s' => Dict.contains (averages s') k = true) track);
      [|exact Hk].
    intros cf' s' Hk'. unfold exec. rewrite track_spec. cbn [fst averages set_averages].
    rewrite contains_set, Hk'. apply orb_true_r. }
  assert (Hcf : Dict.contains (averages (exec (track cf) self)) (CoarseFundamental.symbol cf) = true).
  { unfold exec. rewrite track_spec. cbn [fst averages set_averages].
    rewrite contains_set, Symbol_eqb_refl. reflexivity. }
  unfold outcome, exec in *. rewrite for_each_cons in *.
  destruct (track cf self) as [self1 [[]|e]]; cbn [fst snd] in *; [|discriminate].
  constructor; [apply (Hkeep coarse self1); exact Hcf | apply IH; exact Hok].
Qed.

(** When the selection gets past its loop (it returns, or raises at
    [x.symbol]), every symbol of the coarse data is tracked afterwards. *)
Theorem selection_tracks_batch (coarse : list (CoarseFundamental.t F)) (self : Algorithm.t F A) :
  outcome (coarse_selection_function coarse) self = Ok [] \/
  outcome (coarse_selection_function coarse) self = Raise AttributeError ->
  Forall (fun cf => Dict.contains (averages (exec (coarse_selection_function coarse) self))
                      (CoarseFundamental.symbol cf) = true) coarse.
Proof.
  intro Hout. rewrite selection_state. apply loop_tracks.
  pose proof (loop_only_raises coarse self) as Hloop.
  unfold outcome in *. rewrite selection_after_loop in Hout.
  destruct (for_each coarse track self) as [self1 [[]|e]]; cbn [snd] in *; [reflexivity|].
  destruct (Hloop e eq_refl) as [-> | ->]; destruct Hout; discriminate.
Qed.

(** The handler never raises and touches nothing but the requests; it sends
    as many as there are invested removed securities and added securities,
    and with nothing removed and nothing added it leaves the algorithm as it
    was. *)
Theorem on_securities_changed_frame (self : Algorithm.t F A) (changes : SecurityChanges.t) :
  coarse_count (exec (on_securities_changed changes) self) = coarse_count self /\
  logged (exec (on_securities_changed changes) self) = logged self /\
  (List.length (requests (exec (on_securities_changed changes) self))
   = List.length (requests self)
     + List.length (filter Security.invested (SecurityChanges.removed_securities changes))
     + List.length (SecurityChanges.added_securities changes))%nat /\
  exec (on_securities_changed
          {| SecurityChanges.removed_securities := [];
             SecurityChanges.added_securities := [] |}) self = self.
Proof.
  unfold exec, on_securities_changed. unfold bind.
  rewrite liquidate_removed, allocate_added, with_requests_app. cbn [fst].
  split; [reflexivity|]. split; [reflexivity|]. split.
  - cbn [requests with_requests]. rewrite !length_app, !length_map. lia.
  - destruct self. reflexivity.
Qed.
End SelectionProperties.

(** ** The further properties on runs of the algorithm *)

Lemma daily_selections_ok (days : list (sample float)) (self : Algo) :
  tracked_ok self -> tracked_ok (exec (daily_selections days) self).
Proof.
  intro Hok. unfold daily_selections.
  apply (for_each_keeps tracked_ok
           (fun x => Algorithm.coarse_selection_function [spy_bar x] ;; ret tt));
    [|exact Hok].
  intros x s Hs.
  replace (exec (Algorithm.coarse_selection_function [spy_bar x] ;; ret tt) s)
    with (exec (Algorithm.coarse_selection_function [spy_bar x]) s).
  - rewrite selection_state. apply loop_keeps_ok. exact Hs.
  - unfold exec, bind.
    destruct (Algorithm.coarse_selection_function [spy_bar x] s) as [s' [l|e]]; reflexivity.
Qed.

Lemma algorithm_flat_ok : tracked_ok algorithm_flat.
Proof. apply daily_selections_ok, tracked_ok_initialize. Qed.

(** The first selection of SPY returns, and SPY is tracked after it. *)
Lemma selection_tracks_batch_witness :
  (outcome (Algorithm.coarse_selection_function [spy_bar (1%Z, 1%float)])
     (Algorithm.initialize (A := EMA.t float)) = Ok [] \/
   outcome (Algorithm.coarse_selection_function [spy_bar (1%Z, 1%float)])
     (Algorithm.initialize (A := EMA.t float)) = Raise AttributeError) /\
  Forall (fun cf =>
            Dict.contains
              (Algorithm.averages
                 (exec (Algorithm.coarse_selection_function [spy_bar (1%Z, 1%float)])
                    (Algorithm.initialize (A := EMA.t float))))
              (CoarseFundamental.symbol cf) = true)
    [spy_bar (1%Z, 1%float)].
Proof.
  assert (Hret : outcome (Algorithm.coarse_selection_function [spy_bar (1%Z, 1%float)])
                   (Algorithm.initialize (A := EMA.t float)) = Ok [] \/
                 outcome (Algorithm.coarse_selection_function [spy_bar (1%Z, 1%float)])
                   (Algorithm.initialize (A := EMA.t float)) = Raise AttributeError)
    by (left; vm_compute; reflexivity).
  exact (conj Hret (selection_tracks_batch [spy_bar (1%Z, 1%float)] Algorithm.initialize Hret)).
Defined.

(** The selection of day 399 keeps the tracking of the flat days well
    formed, although it raises. *)
Lemma selection_keeps_tracked_ok_witness :
  tracked_ok algorithm_flat /\
  tracked_ok (exec (Algorithm.coarse_selection_function [spy_bar (399%Z, 2%float)])
                algorithm_flat).
Proof.
  exact (conj algorithm_flat_ok
           (selection_keeps_tracked_ok [spy_bar (399%Z, 2%float)] algorithm_flat
              algorithm_flat_ok)).
Defined.

(** The selection of day 399 after the flat days does not raise
    UnboundLocalError. *)
Lemma selection_no_unbound_local_witness :
  monotone_ready float (EMA.t float) /\
  tracked_ok algorithm_flat /\
  outcome (Algorithm.coarse_selection_function [spy_bar (399%Z, 2%float)]) algorithm_flat
    <> Raise UnboundLocalError.
Proof.
  exact (conj EMA_monotone_ready
           (conj algorithm_flat_ok
              (selection_no_unbound_local EMA_monotone_ready
                 [spy_bar (399%Z, 2%float)] algorithm_flat algorithm_flat_ok))).
Defined.

(** A day with SPY alone leaves the object of AAPL as it was. *)
Lemma selection_touches_only_batch_witness :
  ~ In AAPL (map CoarseFundamental.symbol [spy_bar (2%Z, 1%float)]) /\
  Dict.get (Algorithm.averages
              (exec (Algorithm.coarse_selection_function [spy_bar (2%Z, 1%float)])
                 algorithm_aapl)) AAPL
    = Dict.get (Algorithm.averages algorithm_aapl) AAPL.
Proof.
  assert (Hout : ~ In AAPL (map CoarseFundamental.symbol [spy_bar (2%Z, 1%float)])).
  { intros [Heq | []]. discriminate Heq. }
  exact (conj Hout
           (selection_touches_only_batch [spy_bar (2%Z, 1%float)] algorithm_aapl AAPL Hout)).
Defined.
